(** * LearnPage: the Gopher Archive learning portal

    A shallow embedding of [frontend/src/pages/LearnPage.js]: the React
    component's state, its event handlers (typed input, dictation, submission
    to the archive endpoint, transcript export) and the properties of the
    conversation they maintain.

    JavaScript strings are sequences of UTF-16 code units; a handler is a
    computation that queues state updates and performs effects in program
    order and may complete normally or by an exception. *)

From Stdlib Require Import List NArith ZArith QArith Bool Ascii String Lia Lqa.
Import ListNotations.

Set Implicit Arguments.
Set Warnings "-register-all".

(* ================================================================== *)
(** ** JavaScript strings *)

Module JsString.

(** A string is its list of UTF-16 code units. *)
Definition jsstring := list N.

(** An ASCII literal of the source. *)
Definition js (s : string) : jsstring :=
  map N_of_ascii (list_ascii_of_string s).

Definition code_eqb (a b : N) : bool := N.eqb a b.

Fixpoint eqb (s t : jsstring) : bool :=
  match s, t with
  | [], [] => true
  | a :: s', b :: t' => code_eqb a b && eqb s' t'
  | _, _ => false
  end.

(** WhiteSpace and LineTerminator code points of ECMAScript, the ones
    [String.prototype.trim] strips. *)
Definition isWhiteSpace (c : N) : bool :=
  match c with
  | 9 | 10 | 11 | 12 | 13 | 32 | 160 | 5760
  | 8232 | 8233 | 8239 | 8287 | 12288 | 65279 => true
  | _ => (8192 <=? c) && (c <=? 8202)
  end%N.

Fixpoint trimStart (s : jsstring) : jsstring :=
  match s with
  | [] => []
  | c :: s' => if isWhiteSpace c then trimStart s' else s
  end.

Definition trimEnd (s : jsstring) : jsstring := rev (trimStart (rev s)).

Definition trim (s : jsstring) : jsstring := trimEnd (trimStart s).

(** ToBoolean on a string: only the empty string is falsy. *)
Definition truthy (s : jsstring) : bool :=
  match s with [] => false | _ :: _ => true end.

(** [Array.prototype.join] on an array of strings. *)
Fixpoint join (sep : jsstring) (l : list jsstring) : jsstring :=
  match l with
  | [] => []
  | [s] => s
  | s :: rest => s ++ sep ++ join sep rest
  end.

End JsString.
Import JsString.

(* ================================================================== *)
(** ** JSON values *)

(** What [response.json()] can resolve to.  A number is the rational value
    of the double it was parsed to; an object is its own properties, one
    entry per key. *)
Inductive Json : Type :=
| JNull
| JBool (b : bool)
| JNum (q : Q)
| JStr (s : jsstring)
| JArr (elems : list Json)
| JObj (fields : list (jsstring * Json)).

(** ToBoolean. *)
Definition ToBoolean (v : Json) : bool :=
  match v with
  | JNull => false
  | JBool b => b
  | JNum q => negb (Qeq_bool q 0)
  | JStr s => truthy s
  | JArr _ | JObj _ => true
  end.

Fixpoint own_property (key : jsstring) (fields : list (jsstring * Json))
  : option Json :=
  match fields with
  | [] => None
  | (k, v) :: rest => if JsString.eqb k key then Some v else own_property key rest
  end.

(** The exceptions that the handlers can meet. *)
Inductive Exn : Type :=
| TypeError                 (* property access on null *)
| FetchRejected             (* the promise of fetch rejected *)
| JsonRejected              (* the promise of response.json() rejected *)
| Error (message : jsstring).

Inductive Completion (A : Type) : Type :=
| Normal (a : A)
| Throw (e : Exn).
Arguments Normal {A} a.
Arguments Throw {A} e.

(** [v.response]: [None] is undefined.  No built-in prototype has a
    property of that name, so only an object's own property is found. *)
Definition get_response (v : Json) : Completion (option Json) :=
  match v with
  | JNull => Throw TypeError
  | JObj fields => Normal (own_property (js "response") fields)
  | JBool _ | JNum _ | JStr _ | JArr _ => Normal None
  end.

(** [a || b] where [a] may be undefined. *)
Definition or_else (a : option Json) (b : Json) : Json :=
  match a with
  | Some v => if ToBoolean v then v else b
  | None => b
  end.

(** [JSON.stringify] of a string (QuoteJSONString): the quote, the
    backslash and the control characters are escaped, a lone surrogate is
    written as a [\u] escape and a surrogate pair is kept. *)
Module Quote.

Definition hexdigit (d : N) : N :=
  (if d <? 10 then 48 + d else 87 + d)%N.

Definition unicode_escape (c : N) : jsstring :=
  [92; 117; hexdigit (c / 4096 mod 16); hexdigit (c / 256 mod 16);
   hexdigit (c / 16 mod 16); hexdigit (c mod 16)]%N.

Definition is_lead (c : N) : bool := ((55296 <=? c) && (c <=? 56319))%N.
Definition is_trail (c : N) : bool := ((56320 <=? c) && (c <=? 57343))%N.

Definition quote_unit (c : N) : jsstring :=
  (if c =? 8 then [92; 98]
   else if c =? 9 then [92; 116]
   else if c =? 10 then [92; 110]
   else if c =? 12 then [92; 102]
   else if c =? 13 then [92; 114]
   else if c =? 34 then [92; 34]
   else if c =? 92 then [92; 92]
   else if c <? 32 then unicode_escape c else [c])%N.

Fixpoint quote_units (s : jsstring) : jsstring :=
  match s with
  | [] => []
  | c :: rest =>
      if is_lead c then
        match rest with
        | d :: rest' =>
            if is_trail d then c :: d :: quote_units rest'
            else unicode_escape c ++ quote_units rest
        | [] => unicode_escape c
        end
      else if is_trail c then unicode_escape c ++ quote_units rest
      else quote_unit c ++ quote_units rest
  end.

Definition QuoteJSONString (s : jsstring) : jsstring :=
  [34%N] ++ quote_units s ++ [34%N].

End Quote.

(** [JSON.stringify({ query })] for a string [query]. *)
Definition stringify_query (query : jsstring) : jsstring :=
  [123; 34]%N ++ js "query" ++ [34; 58]%N ++ Quote.QuoteJSONString query ++ [125%N].

(* ================================================================== *)
(** ** The component's state *)

Inductive Role : Type := user | assistant.

(** A message of the conversation.  [content] is whatever value the
    handler stored: the typed draft, or the reply field of the payload. *)
Record Message : Type := mkMessage {
  role : Role;
  content : Json;
  timestamp : jsstring
}.

(** The object built by [new SpeechRecognition()] at mount. *)
Inductive SpeechRecognition : Type := recognitionInstance.

(** The six [useState] cells. *)
Record State : Type := mkState {
  query : jsstring;
  messages : list Message;
  loading : bool;
  error : option jsstring;
  isRecordingLearn : bool;
  recognitionLearn : option SpeechRecognition
}.

(** The values of the first render. *)
Definition initial : State :=
  {| query := []; messages := []; loading := false; error := None;
     isRecordingLearn := false; recognitionLearn := None |}.

(** A call of a state setter.  [setMessages] takes the updater function. *)
Inductive Update : Type :=
| setQuery (s : jsstring)
| setMessages (f : list Message -> list Message)
| setLoading (b : bool)
| setError (e : option jsstring)
| setIsRecordingLearn (b : bool)
| setRecognitionLearn (r : option SpeechRecognition).

Definition apply_update (st : State) (u : Update) : State :=
  match u with
  | setQuery s =>
      {| query := s; messages := messages st; loading := loading st;
         error := error st; isRecordingLearn := isRecordingLearn st;
         recognitionLearn := recognitionLearn st |}
  | setMessages f =>
      {| query := query st; messages := f (messages st); loading := loading st;
         error := error st; isRecordingLearn := isRecordingLearn st;
         recognitionLearn := recognitionLearn st |}
  | setLoading b =>
      {| query := query st; messages := messages st; loading := b;
         error := error st; isRecordingLearn := isRecordingLearn st;
         recognitionLearn := recognitionLearn st |}
  | setError e =>
      {| query := query st; messages := messages st; loading := loading st;
         error := e; isRecordingLearn := isRecordingLearn st;
         recognitionLearn := recognitionLearn st |}
  | setIsRecordingLearn b =>
      {| query := query st; messages := messages st; loading := loading st;
         error := error st; isRecordingLearn := b;
         recognitionLearn := recognitionLearn st |}
  | setRecognitionLearn r =>
      {| query := query st; messages := messages st; loading := loading st;
         error := error st; isRecordingLearn := isRecordingLearn st;
         recognitionLearn := r |}
  end.

(* ================================================================== *)
(** ** Effects *)

Record Request : Type := mkRequest {
  url : jsstring;
  method : jsstring;
  headers : list (jsstring * jsstring);
  body : jsstring
}.

(** The calls made on the jsPDF document. *)
Inductive PdfOp : Type :=
| setFontSize (size : Q)
| setFont (family style : jsstring)
| text (s : jsstring) (x y : Q)
| line (x1 y1 x2 y2 : Q)
| addPage
| save (filename : jsstring).

(** A function handed to [setTimeout].  The auto-stop closure of
    [toggleMicrophoneLearn] reads [isRecordingLearn] and [recognitionLearn]
    of the render that created it, which it carries. *)
Inductive Callback : Type :=
| focusInput
| autoStop (render : State)
| notificationFadeOut
| notificationRemove.

Inductive Effect : Type :=
| preventDefault
| recognition_start
| recognition_stop
| fetch (req : Request)
| setTimeout (cb : Callback) (ms : N)
| console_warn (s : jsstring)
| console_error (s : jsstring)
| console_log (s : jsstring) (v : Json)
| input_focus
| clipboard_writeText (s : jsstring)
| navigate (path : jsstring)
| pdf (op : PdfOp)
| notification_append (message : jsstring)
| notification_fade_out
| notification_remove.

Inductive Action : Type :=
| update (u : Update)
| perform (e : Effect).

(* ================================================================== *)
(** ** Handlers as computations *)

(** A handler run: the actions in program order, and how it completed. *)
Definition M (A : Type) : Type := (list Action * Completion A)%type.

Definition ret {A} (a : A) : M A := ([], Normal a).

Definition bind {A B} (m : M A) (k : A -> M B) : M B :=
  match m with
  | (acts, Normal a) => let (acts', r) := k a in (acts ++ acts', r)
  | (acts, Throw e) => (acts, Throw e)
  end.

Definition throw {A} (e : Exn) : M A := ([], Throw e).

Definition call (u : Update) : M unit := ([update u], Normal tt).

Definition effect (e : Effect) : M unit := ([perform e], Normal tt).

Definition lift {A} (c : Completion A) : M A := ([], c).

(** A call of an async function that is not awaited: its synchronous part
    runs, and an exception stays inside the promise it returns. *)
Definition spawn {A} (m : M A) : M unit := (fst m, Normal tt).

(** [try { body } catch (err) { handler err }] *)
Definition try_catch {A} (body : M A) (handler : Exn -> M A) : M A :=
  match body with
  | (acts, Normal a) => (acts, Normal a)
  | (acts, Throw e) => let (acts', r) := handler e in (acts ++ acts', r)
  end.

(** [try { body } finally { fin }] *)
Definition try_finally {A} (body : M A) (fin : M unit) : M A :=
  match body, fin with
  | (acts, r), (acts', Normal _) => (acts ++ acts', r)
  | (acts, _), (acts', Throw e) => (acts ++ acts', Throw e)
  end.

Declare Scope handler_scope.
Delimit Scope handler_scope with handler.
Notation "x <- m ;; k" := (bind m (fun x => k))
  (at level 61, m at next level, right associativity) : handler_scope.
Notation "m ;; k" := (bind m (fun _ => k))
  (at level 61, right associativity) : handler_scope.
Open Scope handler_scope.

(** The queued updates of a run, applied in order to the live state. *)
Fixpoint commit (st : State) (acts : list Action) : State :=
  match acts with
  | [] => st
  | update u :: rest => commit (apply_update st u) rest
  | perform _ :: rest => commit st rest
  end.

Fixpoint effects (acts : list Action) : list Effect :=
  match acts with
  | [] => []
  | update _ :: rest => effects rest
  | perform e :: rest => e :: effects rest
  end.

Definition requests (acts : list Action) : list Request :=
  flat_map (fun a => match a with perform (fetch r) => [r] | _ => [] end) acts.

(* ================================================================== *)
(** ** Dictation *)

(** [recognitionLearn.stop()] on the state cell, which holds null until the
    mount effect stored the instance. *)
Definition recognitionLearn_stop (r : option SpeechRecognition) : M unit :=
  match r with
  | Some _ => effect recognition_stop
  | None => throw TypeError
  end.

Definition recognitionLearn_start (r : option SpeechRecognition) : M unit :=
  match r with
  | Some _ => effect recognition_start
  | None => throw TypeError
  end.

(** One entry of [event.results]: the transcript of its first alternative
    and its [isFinal] flag. *)
Definition RecognitionResult : Type := (jsstring * bool)%type.

(** The loop of [onresult] over the results from [event.resultIndex] on:
    the pair (interimTranscript, finalTranscript). *)
Fixpoint transcripts (results : list RecognitionResult)
    (interim final : jsstring) : jsstring * jsstring :=
  match results with
  | [] => (interim, final)
  | (transcript, isFinal) :: rest =>
      if isFinal then transcripts rest interim (final ++ transcript)
      else transcripts rest (interim ++ transcript) final
  end.

Definition onresult (results : list RecognitionResult) : M unit :=
  let (interimTranscript, finalTranscript) := transcripts results [] [] in
  if truthy finalTranscript then call (setQuery finalTranscript)
  else if truthy interimTranscript then call (setQuery interimTranscript)
  else ret tt.

Definition onend : M unit :=
  call (setIsRecordingLearn false) ;;
  effect (setTimeout focusInput 100).

Definition onerror : M unit :=
  effect (console_error (js "Speech recognition error:")) ;;
  call (setIsRecordingLearn false) ;;
  effect (setTimeout focusInput 100).

(** The first mount effect; [supported] says whether the window has a
    SpeechRecognition constructor. *)
Definition speechRecognitionSetup (supported : bool) : M unit :=
  if supported then call (setRecognitionLearn (Some recognitionInstance))
  else ret tt.

Definition is_null {A} (r : option A) : bool :=
  match r with None => true | Some _ => false end.

(** [render] is the render whose closure the button calls. *)
Definition toggleMicrophoneLearn (render : State) : M unit :=
  if is_null (recognitionLearn render) || loading render then
    if is_null (recognitionLearn render)
    then effect (console_warn (js "Speech recognition not supported in this browser."))
    else ret tt
  else if isRecordingLearn render then
    recognitionLearn_stop (recognitionLearn render) ;;
    call (setIsRecordingLearn false) ;;
    effect (setTimeout focusInput 100)
  else
    call (setIsRecordingLearn true) ;;
    recognitionLearn_start (recognitionLearn render) ;;
    effect (setTimeout (autoStop render) 3000).

(** The body of a timer callback when it fires. *)
Definition run_callback (cb : Callback) : M unit :=
  match cb with
  | focusInput => effect input_focus
  | autoStop render =>
      if isRecordingLearn render
      then recognitionLearn_stop (recognitionLearn render)
      else ret tt
  | notificationFadeOut =>
      effect notification_fade_out ;;
      effect (setTimeout notificationRemove 500)
  | notificationRemove => effect notification_remove
  end.

(* ================================================================== *)
(** ** The conversation *)

Definition welcome_content : jsstring :=
  js "Welcome to the Gopher Archive Learning Portal. I can help you understand:"
  ++ [10; 10; 8226]%N ++ js " Gopher protocol history and technical details"
  ++ [10; 8226]%N ++ js " Differences between old and modern technologies"
  ++ [10; 8226]%N ++ js " Internet evolution from 1990s to today"
  ++ [10; 8226]%N ++ js " Vintage computing and protocols"
  ++ [10; 10]%N ++ js "What would you like to learn about?".

(** The second mount effect; [now] is [new Date().toISOString()]. *)
Definition welcome (now : jsstring) : M unit :=
  call (setMessages (fun _ =>
    [ {| role := assistant; content := JStr welcome_content; timestamp := now |} ])).

Definition learn_endpoint : jsstring := js "http://localhost:5000/api/learn".

Definition fallback_reply : jsstring := js "No response from archive.".

Definition connect_error : jsstring :=
  js "Unable to connect to archive. Please try again.".

(** [handleSubmit] up to its first [await]: what runs inside the event.
    The result says whether a request was sent, so that the function goes
    on in [handleSubmit_resume] when the request settles. *)
Inductive Suspended : Type := returned | awaiting.

Definition handleSubmit (render : State) (now : jsstring) : M Suspended :=
  effect preventDefault ;;
  if negb (truthy (trim (query render))) then ret returned
  else
    (if isRecordingLearn render
     then recognitionLearn_stop (recognitionLearn render)
     else ret tt) ;;
    let userMessage :=
      {| role := user; content := JStr (query render); timestamp := now |} in
    call (setMessages (fun prev => prev ++ [userMessage])) ;;
    call (setQuery []) ;;
    call (setLoading true) ;;
    call (setError None) ;;
    effect (fetch {| url := learn_endpoint;
                     method := js "POST";
                     headers := [(js "Content-Type", js "application/json")];
                     body := stringify_query (query render) |}) ;;
    ret awaiting.

(** How the request settles: the promise of [fetch] rejects, or resolves
    to a response with a status whose body parses to JSON or not. *)
Inductive Body : Type :=
| invalid_json
| parsed (data : Json).

Inductive Settled : Type :=
| rejected
| response (status : N) (payload : Body).

(** [response.ok] *)
Definition ok (status : N) : bool := ((200 <=? status) && (status <=? 299))%N.

Definition await_fetch (o : Settled) : M (N * Body) :=
  match o with
  | rejected => throw FetchRejected
  | response status payload => ret (status, payload)
  end.

Definition await_json (payload : Body) : M Json :=
  match payload with
  | invalid_json => throw JsonRejected
  | parsed data => ret data
  end.

(** The rest of [handleSubmit], from the settled [fetch] to its end; [now]
    is the clock when the reply is turned into a message. *)
Definition handleSubmit_resume (o : Settled) (now : jsstring) : M unit :=
  try_finally
    (try_catch
       (resp <- await_fetch o ;;
        let (status, payload) := resp in
        if negb (ok status) then throw (Error (js "Failed to get response"))
        else
          data <- await_json payload ;;
          effect (console_log (js "Learn API data:") data) ;;
          reply <- lift (get_response data) ;;
          let assistantMessage :=
            {| role := assistant;
               content := or_else reply (JStr fallback_reply);
               timestamp := now |} in
          call (setMessages (fun prev => prev ++ [assistantMessage])))
       (fun err =>
          call (setError (Some connect_error)) ;;
          effect (console_error (js "Learn API error:"))))
    (call (setLoading false)).

Definition handleKeyPress (render : State) (key : jsstring) (shiftKey : bool)
    (now : jsstring) : M unit :=
  if JsString.eqb key (js "Enter") && negb shiftKey then
    effect preventDefault ;;
    spawn (handleSubmit render now)
  else ret tt.

(* ================================================================== *)
(** ** Transcript export *)

(** What the exports take from the browser and from jsPDF. *)
Record Platform : Type := mkPlatform {
  (** [new Date(iso).toLocaleTimeString()] *)
  toLocaleTimeString : jsstring -> jsstring;
  (** ToString of a value interpolated in a template literal *)
  ToString : Json -> Completion jsstring;
  ToString_JStr : forall s, ToString (JStr s) = Normal s;
  (** [doc.internal.pageSize], in the unit of the document *)
  pageWidth : Q;
  pageHeight : Q;
  (** [doc.splitTextToSize(text, maxWidth)] *)
  splitTextToSize : Json -> Q -> Completion (list jsstring)
}.

Definition role_label (r : Role) : jsstring :=
  match r with user => js "YOU" | assistant => js "ARCHIVE" end.

Definition showNotification (message : jsstring) : M unit :=
  effect (notification_append message) ;;
  effect (setTimeout notificationFadeOut 2500).

Definition margin : Q := 20.
Definition lineHeight : Q := 7.

(** [a > b] on numbers. *)
Definition gtb (a b : Q) : bool := negb (Qle_bool a b).

Section TranscriptExport.

Variable P : Platform.

(** The callback of [messages.map] in [handleCopyText]. *)
Definition copy_block (msg : Message) : M jsstring :=
  let time := toLocaleTimeString P (timestamp msg) in
  let role := role_label (role msg) in
  c <- lift (ToString P (content msg)) ;;
  ret ([91%N] ++ time ++ [93; 32]%N ++ role ++ [58; 10]%N ++ c ++ [10%N]).

Fixpoint map_M {A B} (f : A -> M B) (l : list A) : M (list B) :=
  match l with
  | [] => ret []
  | a :: rest => b <- f a ;; bs <- map_M f rest ;; ret (b :: bs)
  end.

Definition conversationText (msgs : list Message) : M jsstring :=
  blocks <- map_M copy_block msgs ;;
  ret (join [10%N] blocks).

Definition handleCopyText (render : State) : M unit :=
  t <- conversationText (messages render) ;;
  effect (clipboard_writeText t).

(** The [then] callback of the clipboard promise. *)
Definition copied : M unit :=
  showNotification (js "Conversation copied to clipboard!").

(** The inner [lines.forEach] of [handleDownloadPDF]; the result is
    [yPosition] after the loop. *)
Fixpoint pdf_lines (lines : list jsstring) (yPosition : Q) : M Q :=
  match lines with
  | [] => ret yPosition
  | l :: rest =>
      yPosition <-
        (if gtb yPosition (pageHeight P - margin)
         then effect (pdf addPage) ;; ret margin
         else ret yPosition) ;;
      effect (pdf (text l margin yPosition)) ;;
      pdf_lines rest (yPosition + lineHeight)
  end.

(** The body of the outer [messages.forEach]. *)
Definition pdf_message (msg : Message) (yPosition : Q) : M Q :=
  let time := toLocaleTimeString P (timestamp msg) in
  let role := role_label (role msg) in
  yPosition <-
    (if gtb yPosition (pageHeight P - margin)
     then effect (pdf addPage) ;; ret margin
     else ret yPosition) ;;
  effect (pdf (setFont (js "courier") (js "bold"))) ;;
  effect (pdf (text ([91%N] ++ time ++ [93; 32]%N ++ role ++ [58%N])
                    margin yPosition)) ;;
  let yPosition := yPosition + lineHeight in
  effect (pdf (setFont (js "courier") (js "normal"))) ;;
  lines <- lift (splitTextToSize P (content msg) (pageWidth P - 2 * margin)) ;;
  yPosition <- pdf_lines lines yPosition ;;
  ret (yPosition + 5).

Fixpoint pdf_messages (msgs : list Message) (yPosition : Q) : M Q :=
  match msgs with
  | [] => ret yPosition
  | msg :: rest =>
      yPosition <- pdf_message msg yPosition ;;
      pdf_messages rest yPosition
  end.

(** The title, the timestamp and the rule; the result is [yPosition]
    where the messages start.  [generated] is
    [new Date().toLocaleString()]. *)
Definition pdf_heading (generated : jsstring) : M Q :=
  let yPosition := margin in
  effect (pdf (setFontSize 16)) ;;
  effect (pdf (setFont (js "courier") (js "bold"))) ;;
  effect (pdf (text (js "GOPHER ARCHIVE - LEARNING SESSION") margin yPosition)) ;;
  let yPosition := yPosition + 10 in
  effect (pdf (setFontSize 10)) ;;
  effect (pdf (setFont (js "courier") (js "normal"))) ;;
  effect (pdf (text (js "Generated: " ++ generated) margin yPosition)) ;;
  let yPosition := yPosition + 10 in
  effect (pdf (line margin yPosition (pageWidth P - margin) yPosition)) ;;
  let yPosition := yPosition + 10 in
  effect (pdf (setFontSize 10)) ;;
  ret yPosition.

(** [epoch] is the decimal text of [Date.now()]. *)
Definition handleDownloadPDF (render : State) (generated epoch : jsstring)
  : M unit :=
  yPosition <- pdf_heading generated ;;
  pdf_messages (messages render) yPosition ;;
  effect (pdf (save (js "gopher-archive-" ++ epoch ++ js ".pdf"))) ;;
  showNotification (js "PDF downloaded successfully!").

End TranscriptExport.

(* ================================================================== *)
(** ** The component as a transition system *)

(** The [disabled] attributes of the rendered controls. *)
Definition input_disabled (render : State) : bool := loading render.

Definition mic_disabled (render : State) : bool :=
  loading render || is_null (recognitionLearn render).

Definition submit_disabled (render : State) : bool :=
  loading render || negb (truthy (trim (query render))).

Definition export_disabled (render : State) : bool :=
  (List.length (messages render) <=? 1)%nat.

(** What can happen to the mounted component.  An event of a control
    carries what the handler reads from the event and from the clock. *)
Inductive Event : Type :=
| Change (value : jsstring)                          (* input onChange *)
| KeyPress (key : jsstring) (shiftKey : bool) (now : jsstring)
                                                     (* input onKeyPress *)
| FormSubmit (now : jsstring)                        (* form onSubmit *)
| MicClick
| CopyClick
| PdfClick (generated epoch : jsstring)
| BackClick
| ClipboardWritten
| Recognized (results : list RecognitionResult)      (* recognition onresult *)
| RecognitionEnded                                   (* recognition onend *)
| RecognitionFailed                                  (* recognition onerror *)
| TimerFired (cb : Callback)
| FetchSettled (o : Settled) (now : jsstring).

Section Component.

Variable P : Platform.

(** The handler that an event runs, with the closure of the current
    render.  A disabled control delivers no event; the form is submitted
    through its submit button. *)
Definition handle (render : State) (ev : Event) : M unit :=
  match ev with
  | Change value =>
      if input_disabled render then ret tt else call (setQuery value)
  | KeyPress key shiftKey now =>
      if input_disabled render then ret tt
      else handleKeyPress render key shiftKey now
  | FormSubmit now =>
      if submit_disabled render then ret tt
      else spawn (handleSubmit render now)
  | MicClick =>
      if mic_disabled render then ret tt else toggleMicrophoneLearn render
  | CopyClick =>
      if export_disabled render then ret tt else handleCopyText P render
  | PdfClick generated epoch =>
      if export_disabled render then ret tt
      else handleDownloadPDF P render generated epoch
  | BackClick => effect (navigate (js "/"))
  | ClipboardWritten => copied
  | Recognized results => onresult results
  | RecognitionEnded => onend
  | RecognitionFailed => onerror
  | TimerFired cb => run_callback cb
  | FetchSettled o now => handleSubmit_resume o now
  end.

Definition step (st : State) (ev : Event) : State :=
  commit st (fst (handle st ev)).

Definition step_effects (st : State) (ev : Event) : list Effect :=
  effects (fst (handle st ev)).

(** The two mount effects on the first render. *)
Definition mount (supported : bool) (now : jsstring) : State :=
  commit initial (fst (speechRecognitionSetup supported ;; welcome now)).

Fixpoint steps (st : State) (evs : list Event) : State :=
  match evs with
  | [] => st
  | ev :: rest => steps (step st ev) rest
  end.

Inductive reachable : State -> Prop :=
| reach_mount : forall supported now, reachable (mount supported now)
| reach_step : forall st ev, reachable st -> reachable (step st ev).

(** Recording is only ever switched on with a recognition instance. *)
Definition consistent (st : State) : Prop :=
  isRecordingLearn st = true -> recognitionLearn st <> None.

End Component.

(* ================================================================== *)
(** ** The vocabulary of the properties *)

(** The messages that a submission builds. *)
Definition userMessage (draft now : jsstring) : Message :=
  {| role := user; content := JStr draft; timestamp := now |}.

Definition assistantMessage (reply : Json) (now : jsstring) : Message :=
  {| role := assistant; content := reply; timestamp := now |}.

(** A run is quiet when its updates leave every state as it is. *)
Definition quiet (acts : list Action) : Prop :=
  forall st, commit st acts = st.

(** A request that failed: the promise rejected, or the status is not
    a 2xx one. *)
Definition failed (o : Settled) : Prop :=
  o = rejected \/
  exists status payload, o = response status payload /\ ok status = false.

(** A request that was answered with a 2xx status, whatever its body. *)
Definition answered_2xx (o : Settled) : Prop :=
  exists status payload, o = response status payload /\ ok status = true.

(** A request that was answered with a 2xx status and a body that parsed
    as JSON to a payload other than null. *)
Definition answered_with_payload (o : Settled) : Prop :=
  exists status data,
    o = response status (parsed data) /\ ok status = true /\ data <> JNull.

(** The payload whose only field is the reply. *)
Definition reply_payload (X : jsstring) : Json :=
  JObj [(js "response", JStr X)].

(** The payload has no field named response. *)
Definition lacks_response (data : Json) : Prop :=
  match data with
  | JObj fields => own_property (js "response") fields = None
  | _ => True
  end.

Definition sets_error (a : Action) : Prop :=
  exists e, a = update (setError e).

(** The reading of a JSON string by the receiver of the request, from
    after its opening quote: the string and what follows its closing
    quote. *)
Definition hexval (c : N) : option N :=
  (if (48 <=? c) && (c <=? 57) then Some (c - 48)
   else if (97 <=? c) && (c <=? 102) then Some (c - 87)
   else if (65 <=? c) && (c <=? 70) then Some (c - 55)
   else None)%N.

Definition hex4 (h1 h2 h3 h4 : N) : option N :=
  match hexval h1, hexval h2, hexval h3, hexval h4 with
  | Some a, Some b, Some c, Some d => Some (((a * 16 + b) * 16 + c) * 16 + d)%N
  | _, _, _, _ => None
  end.

Definition unescape (e : N) : option N :=
  (if e =? 98 then Some 8
   else if e =? 116 then Some 9
   else if e =? 110 then Some 10
   else if e =? 102 then Some 12
   else if e =? 114 then Some 13
   else if e =? 34 then Some 34
   else if e =? 92 then Some 92
   else if e =? 47 then Some 47
   else None)%N.

Definition cons_unit (c : N) (r : option (jsstring * jsstring))
  : option (jsstring * jsstring) :=
  match r with Some (s, rest) => Some (c :: s, rest) | None => None end.

Fixpoint read_string (t : jsstring) : option (jsstring * jsstring) :=
  match t with
  | [] => None
  | c :: rest =>
      if (c =? 34)%N then Some ([], rest)
      else if (c =? 92)%N then
        match rest with
        | e :: rest1 =>
            if (e =? 117)%N then
              match rest1 with
              | h1 :: h2 :: h3 :: h4 :: rest2 =>
                  match hex4 h1 h2 h3 h4 with
                  | Some u => cons_unit u (read_string rest2)
                  | None => None
                  end
              | _ => None
              end
            else
              match unescape e with
              | Some u => cons_unit u (read_string rest1)
              | None => None
              end
        | [] => None
        end
      else if (c <? 32)%N then None
      else cons_unit c (read_string rest)
  end.

Fixpoint strip_prefix (p t : jsstring) : option jsstring :=
  match p, t with
  | [], _ => Some t
  | a :: p', b :: t' => if (a =? b)%N then strip_prefix p' t' else None
  | _ :: _, [] => None
  end.

(** The query field read back from a body that is an object with that
    one field. *)
Definition read_query (body : jsstring) : option jsstring :=
  match strip_prefix ([123; 34]%N ++ js "query" ++ [34; 58; 34]%N) body with
  | Some t =>
      match read_string t with
      | Some (s, [c]) => if (c =? 125)%N then Some s else None
      | _ => None
      end
  | None => None
  end.

(** A string of 16-bit code units. *)
Definition code_units (s : jsstring) : Prop :=
  Forall (fun c => (c < 65536)%N) s.

Definition nl : jsstring := [10%N].

(** One block of the plain-text export in the words of the specification:
    [[localized-time] ROLE:], a new line, the content, a new line. *)
Definition spec_block (time : jsstring) (r : Role) (content : jsstring)
  : jsstring :=
  js "[" ++ time ++ js "] "
  ++ match r with user => js "YOU" | assistant => js "ARCHIVE" end
  ++ js ":" ++ nl ++ content ++ nl.

Fixpoint intersperse {A} (sep : A) (l : list A) : list A :=
  match l with
  | [] => []
  | [a] => [a]
  | a :: rest => a :: sep :: intersperse sep rest
  end.

(** The plain-text export in the words of the specification: the blocks
    of the messages in their order, a new line put between two neighbours,
    so that an empty line separates them.  [texts] are the contents as
    text. *)
Definition spec_plain_text (P : Platform) (msgs : list Message)
    (texts : list jsstring) : jsstring :=
  List.concat (intersperse nl
    (map (fun mt => spec_block (toLocaleTimeString P (timestamp (fst mt)))
                               (role (fst mt)) (snd mt))
         (combine msgs texts))).

(** The calls on the document, read as pages: [fresh] says that the last
    page call was [addPage].  Every text is written between the top and
    the bottom margin, and the first text of an added page at the top
    margin. *)
Fixpoint well_paginated (P : Platform) (fresh : bool) (acts : list Action)
  : Prop :=
  match acts with
  | [] => True
  | perform (pdf addPage) :: rest => well_paginated P true rest
  | perform (pdf (text _ _ y)) :: rest =>
      (margin <= y /\ y <= pageHeight P - margin) /\
      (fresh = true -> y = margin) /\
      well_paginated P false rest
  | _ :: rest => well_paginated P fresh rest
  end.

Fixpoint fresh_after (fresh : bool) (acts : list Action) : bool :=
  match acts with
  | [] => fresh
  | perform (pdf addPage) :: rest => fresh_after true rest
  | perform (pdf (text _ _ _)) :: rest => fresh_after false rest
  | _ :: rest => fresh_after fresh rest
  end.

(** What a run that moves the cursor guarantees: its texts are on the
    page, it ends on a page that has text, and the cursor it leaves is
    not above the top margin. *)
Definition paginates (P : Platform) (fresh : bool) (m : M Q) : Prop :=
  well_paginated P fresh (fst m) /\
  fresh_after fresh (fst m) = false /\
  forall y, snd m = Normal y -> margin <= y.

Definition page_breaks (acts : list Action) : nat :=
  List.length (filter (fun a =>
    match a with perform (pdf addPage) => true | _ => false end) acts).

(* ================================================================== *)
(** ** A platform to run the handlers on *)

(** Lines of ten code units. *)
Fixpoint chunk (s cur : jsstring) (room : nat) : list jsstring :=
  match s with
  | [] => [rev cur]
  | c :: s' =>
      match room with
      | O => rev cur :: chunk s' [c] 9
      | S r => chunk s' (c :: cur) r
      end
  end.

(** The clock text is printed as it is stored, only strings are printed,
    and the page is the A4 page that a jsPDF document has by default, in
    millimetres (595.28 by 841.89 points). *)
Definition a4 : Platform :=
  {| toLocaleTimeString := fun iso => iso;
     ToString := fun v =>
       match v with JStr s => Normal s | _ => Throw TypeError end;
     ToString_JStr := fun s => eq_refl;
     pageWidth := 15120112 # 72000;
     pageHeight := 21384006 # 72000;
     splitTextToSize := fun v _ =>
       match v with JStr s => Normal (chunk s [] 10) | _ => Throw TypeError end |}.

Definition t0 : jsstring := js "2025-10-31T20:00:00.000Z".
Definition t1 : jsstring := js "2025-10-31T20:00:05.000Z".
Definition t2 : jsstring := js "2025-10-31T20:00:07.000Z".

(** The page after mount, with a draft typed. *)
Definition drafted : State := step a4 (mount true t0) (Change (js "hi")).

(** Dictation started, an interim transcript shown, the form submitted,
    and then the final transcript delivered while the request is out. *)
Definition dictated_while_loading : State :=
  steps a4 (mount true t0)
    [MicClick; Recognized [(js "hi", false)]; FormSubmit t1;
     Recognized [(js "hi", true)]].

(** A reply of a thousand code units: a hundred lines of the document. *)
Definition long_reply : Message :=
  {| role := assistant; content := JStr (repeat 97%N 1000); timestamp := t2 |}.

(** The conversation of the specification's example. *)
Definition hi_hello : State :=
  {| query := [];
     messages := [ {| role := user; content := JStr (js "Hi"); timestamp := t1 |};
                   {| role := assistant; content := JStr (js "Hello");
                      timestamp := t2 |} ];
     loading := false; error := None;
     isRecordingLearn := false; recognitionLearn := None |}.

(* ================================================================== *)
(** ** The vocabulary of the further properties *)

(** A string of white space only. *)
Definition blank (s : jsstring) : Prop :=
  Forall (fun c => isWhiteSpace c = true) s.

(** The transcripts of the results that are final, and of the others. *)
Definition final_text (results : list RecognitionResult) : jsstring :=
  List.concat (map fst (filter (fun r => snd r) results)).

Definition interim_text (results : list RecognitionResult) : jsstring :=
  List.concat (map fst (filter (fun r => negb (snd r)) results)).

(** The requests sent over a run of events. *)
Fixpoint run_requests (P : Platform) (st : State) (evs : list Event)
  : list Request :=
  match evs with
  | [] => []
  | ev :: rest =>
      requests (fst (handle P st ev)) ++ run_requests P (step P st ev) rest
  end.

Definition is_settle (ev : Event) : bool :=
  match ev with FetchSettled _ _ => true | _ => false end.

(** The header line of a message in the document. *)
Definition pdf_header (P : Platform) (msg : Message) : jsstring :=
  [91%N] ++ toLocaleTimeString P (timestamp msg) ++ [93; 32]%N
  ++ role_label (role msg) ++ [58%N].

(** The texts written on the document, in the order of the calls. *)
Fixpoint written_texts (acts : list Action) : list jsstring :=
  match acts with
  | [] => []
  | perform (pdf (text s _ _)) :: rest => s :: written_texts rest
  | _ :: rest => written_texts rest
  end.

(** The calls on the document read page by page: [last] is the position
    of the last text on the current page, if it has one.  A page is added
    only after a page that has text, the first text of a page is at the
    top margin, and every other text is at least a line height below the
    one before. *)
Fixpoint laid_out (last : option Q) (acts : list Action) : Prop :=
  match acts with
  | [] => True
  | perform (pdf addPage) :: rest => last <> None /\ laid_out None rest
  | perform (pdf (text _ _ y)) :: rest =>
      match last with
      | Some y0 => y0 + lineHeight <= y
      | None => y = margin
      end /\ laid_out (Some y) rest
  | _ :: rest => laid_out last rest
  end.

(** The position of the last text on the last page, after the calls. *)
Definition last_after (last : option Q) (acts : list Action) : option Q :=
  fold_left (fun l a =>
    match a with
    | perform (pdf addPage) => None
    | perform (pdf (text _ _ y)) => Some y
    | _ => l
    end) acts last.

(** A cursor from which the next text can be written. *)
Definition cursor_ok (last : option Q) (y : Q) : Prop :=
  match last with
  | Some y0 => y0 + lineHeight <= y
  | None => y = margin
  end.

(** What a run that moves the cursor guarantees for the layout: its
    texts are laid out, the page it ends on has text, and the cursor it
    leaves is a line height below the last text. *)
Definition lays_out (last : option Q) (m : M Q) : Prop :=
  laid_out last (fst m) /\
  exists y1, last_after last (fst m) = Some y1 /\
             forall y, snd m = Normal y -> y1 + lineHeight <= y.

(** The names under which the document was saved. *)
Fixpoint saves (acts : list Action) : list jsstring :=
  match acts with
  | [] => []
  | perform (pdf (save f)) :: rest => f :: saves rest
  | _ :: rest => saves rest
  end.

(** A run that only calls the document. *)
Definition only_pdf (acts : list Action) : Prop :=
  Forall (fun a => exists op, a = perform (pdf op)) acts.

(** A run sends nothing to the network. *)
Definition offline (acts : list Action) : Prop := requests acts = [].

(** What a step does to the conversation: nothing; or a submission, from a
    page that is not loading, with a draft that is not blank; or a reply;
    or a failure. *)
Inductive conversation_step (st st' : State) : Prop :=
| cs_same :
    messages st' = messages st -> loading st' = loading st ->
    error st' = error st -> conversation_step st st'
| cs_submit : forall now,
    loading st = false -> truthy (trim (query st)) = true ->
    messages st' = messages st ++ [userMessage (query st) now] ->
    loading st' = true -> error st' = None -> query st' = [] ->
    conversation_step st st'
| cs_reply : forall m,
    messages st' = messages st ++ [m] -> role m = assistant ->
    ToBoolean (content m) = true ->
    loading st' = false -> error st' = error st -> conversation_step st st'
| cs_failure :
    messages st' = messages st -> loading st' = false ->
    error st' = Some connect_error -> conversation_step st st'.

(** The page with a draft of two spaces. *)
Definition blank_drafted : State :=
  step a4 (mount true t0) (Change [32; 32]%N).

(** The conversation after a reply whose response field is a number. *)
Definition numeric_reply : State :=
  steps a4 (mount true t0)
    [Change (js "hi"); FormSubmit t1;
     FetchSettled (response 200 (parsed (JObj [(js "response", JNum 5)]))) t2].

(** The conversation after a reply whose response field is the array of
    a string and a number. *)
Definition array_reply : State :=
  steps a4 (mount true t0)
    [Change (js "hi"); FormSubmit t1;
     FetchSettled
       (response 200 (parsed (JObj [(js "response", JArr [JStr (js "a"); JNum 1])])))
       t2].

(** The page with a draft typed, dictation running. *)
Definition recording : State :=
  steps a4 (mount true t0) [MicClick; Recognized [(js "hi", false)]].

(* ================================================================== *)
(** * Properties *)

Unset Implicit Arguments.

(** ** Runs and their updates *)

Lemma commit_app (st : State) (a b : list Action) :
  commit st (a ++ b) = commit (commit st a) b.
Proof.
  revert st; induction a as [|[u|e] a IH]; intros st; simpl; auto.
Qed.

Lemma effects_app (a b : list Action) :
  effects (a ++ b) = effects a ++ effects b.
Proof.
  induction a as [|[u|e] a IH]; simpl; auto. now rewrite IH.
Qed.

Lemma fst_bind {A B} (m : M A) (k : A -> M B) :
  fst (bind m k) =
  fst m ++ match snd m with Normal a => fst (k a) | Throw _ => [] end.
Proof.
  destruct m as [acts [a|e]]; simpl.
  - now destruct (k a).
  - now rewrite app_nil_r.
Qed.

Lemma quiet_nil : quiet [].
Proof. now intros st. Qed.

Lemma quiet_app (a b : list Action) : quiet a -> quiet b -> quiet (a ++ b).
Proof. intros Ha Hb st. now rewrite commit_app, Ha, Hb. Qed.

Lemma quiet_effect (e : Effect) : quiet (fst (effect e)).
Proof. now intros st. Qed.

Lemma quiet_bind {A B} (m : M A) (k : A -> M B) :
  quiet (fst m) -> (forall a, quiet (fst (k a))) -> quiet (fst (bind m k)).
Proof.
  intros Hm Hk. rewrite fst_bind. apply quiet_app; auto.
  destruct (snd m); auto using quiet_nil.
Qed.

Lemma quiet_lift {A} (c : Completion A) : quiet (fst (lift c)).
Proof. now intros st. Qed.

Lemma quiet_ret {A} (a : A) : quiet (fst (ret a)).
Proof. now intros st. Qed.

Create HintDb quiet.
#[local] Hint Resolve quiet_nil quiet_effect quiet_lift quiet_ret : quiet.

Lemma quiet_showNotification (message : jsstring) :
  quiet (fst (showNotification message)).
Proof. now intros st. Qed.

Lemma quiet_run_callback (cb : Callback) : quiet (fst (run_callback cb)).
Proof.
  destruct cb as [|r| |]; intros st; simpl; auto.
  destruct (isRecordingLearn r); simpl; auto.
  destruct (recognitionLearn r); simpl; auto.
Qed.

Section ExportQuiet.

Variable P : Platform.

Lemma quiet_map_M {A B} (f : A -> M B) (l : list A) :
  (forall a, quiet (fst (f a))) -> quiet (fst (map_M f l)).
Proof.
  intros Hf. induction l as [|a l IH]; cbn [map_M]; auto with quiet.
  apply quiet_bind; auto. intros b.
  apply quiet_bind; auto with quiet.
Qed.

Lemma quiet_handleCopyText (render : State) :
  quiet (fst (handleCopyText P render)).
Proof.
  unfold handleCopyText, conversationText.
  repeat (apply quiet_bind; [|intros ?]); auto with quiet.
  apply quiet_map_M. intros m. unfold copy_block.
  apply quiet_bind; auto with quiet.
Qed.

Lemma quiet_pdf_lines (lines : list jsstring) (y : Q) :
  quiet (fst (pdf_lines P lines y)).
Proof.
  revert y; induction lines as [|l lines IH]; intros y; cbn [pdf_lines];
    auto with quiet.
  apply quiet_bind.
  - destruct (gtb y (pageHeight P - margin)); auto with quiet.
  - intros y'. apply quiet_bind; auto with quiet.
Qed.

Lemma quiet_pdf_message (msg : Message) (y : Q) :
  quiet (fst (pdf_message P msg y)).
Proof.
  unfold pdf_message.
  apply quiet_bind.
  - destruct (gtb y (pageHeight P - margin)); auto with quiet.
  - intros y'. repeat (apply quiet_bind; [|intros ?]); auto with quiet.
    apply quiet_pdf_lines.
Qed.

Lemma quiet_pdf_messages (msgs : list Message) (y : Q) :
  quiet (fst (pdf_messages P msgs y)).
Proof.
  revert y; induction msgs as [|m msgs IH]; intros y; cbn [pdf_messages];
    auto with quiet.
  apply quiet_bind; auto using quiet_pdf_message.
Qed.

Lemma quiet_handleDownloadPDF (render : State) (generated epoch : jsstring) :
  quiet (fst (handleDownloadPDF P render generated epoch)).
Proof.
  unfold handleDownloadPDF.
  apply quiet_bind; [now intros st|intros y].
  apply quiet_bind; [apply quiet_pdf_messages|intros y'].
  apply quiet_bind; auto using quiet_showNotification with quiet.
Qed.

End ExportQuiet.

(** ** The request body is read back *)

Lemma hexval_hexdigit (d : N) :
  (d < 16)%N -> hexval (Quote.hexdigit d) = Some d.
Proof.
  intros H. unfold hexval, Quote.hexdigit.
  destruct (N.ltb_spec d 10).
  - replace ((48 <=? 48 + d) && (48 + d <=? 57))%N with true.
    + f_equal. lia.
    + symmetry. apply andb_true_iff. split; apply N.leb_le; lia.
  - replace ((48 <=? 87 + d) && (87 + d <=? 57))%N with false.
    + replace ((97 <=? 87 + d) && (87 + d <=? 102))%N with true.
      * f_equal. lia.
      * symmetry. apply andb_true_iff. split; apply N.leb_le; lia.
    + symmetry. apply andb_false_iff. right. apply N.leb_gt. lia.
Qed.

Lemma hex4_escape (c : N) :
  (c < 65536)%N ->
  hex4 (Quote.hexdigit (c / 4096 mod 16)) (Quote.hexdigit (c / 256 mod 16))
       (Quote.hexdigit (c / 16 mod 16)) (Quote.hexdigit (c mod 16)) = Some c.
Proof.
  intros H. unfold hex4.
  rewrite !hexval_hexdigit by (apply N.mod_lt; discriminate).
  f_equal. zify. Z.to_euclidean_division_equations. lia.
Qed.

Lemma read_escape (c : N) (t : jsstring) :
  (c < 65536)%N ->
  read_string (Quote.unicode_escape c ++ t) = cons_unit c (read_string t).
Proof.
  intros H. unfold Quote.unicode_escape. cbn [app read_string].
  change (92 =? 34)%N with false. change (92 =? 92)%N with true.
  change (117 =? 117)%N with true. cbv iota.
  now rewrite (hex4_escape c H).
Qed.

Lemma read_plain (c : N) (t : jsstring) :
  c <> 34%N -> c <> 92%N -> (32 <= c)%N ->
  read_string (c :: t) = cons_unit c (read_string t).
Proof.
  intros H1 H2 H3. cbn [read_string].
  destruct (N.eqb_spec c 34); [contradiction|].
  destruct (N.eqb_spec c 92); [contradiction|].
  destruct (N.ltb_spec c 32); [lia|reflexivity].
Qed.

Lemma read_quote_unit (c : N) (t : jsstring) :
  (c < 65536)%N ->
  read_string (Quote.quote_unit c ++ t) = cons_unit c (read_string t).
Proof.
  intros H. unfold Quote.quote_unit.
  repeat match goal with
         | |- context [if (?x =? ?k)%N then _ else _] =>
             destruct (N.eqb_spec x k); [subst; reflexivity|]
         end.
  destruct (N.ltb_spec c 32).
  - now apply read_escape.
  - now apply read_plain.
Qed.

(** A surrogate pair is consumed in one step, hence the induction on a
    bound of the length. *)
Lemma read_quote_units (n : nat) :
  forall s, (List.length s <= n)%nat -> code_units s ->
  forall rest,
    read_string (Quote.quote_units s ++ 34%N :: rest) = Some (s, rest).
Proof.
  induction n as [|n IH]; intros [|c s] Hn Hs rest; try reflexivity.
  - simpl in Hn. lia.
  - inversion Hs as [|? ? Hc Hs']; subst. simpl in Hn.
    assert (IHs : read_string (Quote.quote_units s ++ 34%N :: rest)
                  = Some (s, rest)).
    { apply IH; [lia|assumption]. }
    cbn [Quote.quote_units].
    destruct (Quote.is_lead c) eqn:Hl.
    + destruct s as [|d s'].
      * rewrite read_escape by assumption. reflexivity.
      * destruct (Quote.is_trail d) eqn:Ht.
        -- unfold Quote.is_lead, Quote.is_trail in *.
           apply andb_true_iff in Hl, Ht. destruct Hl as [L1 L2], Ht as [T1 T2].
           apply N.leb_le in L1, L2, T1, T2.
           cbn [app]. rewrite !read_plain by lia.
           inversion Hs' as [|? ? Hd Hs'']; subst.
           rewrite IH; [reflexivity|simpl in Hn; lia|assumption].
        -- rewrite <- app_assoc, read_escape by assumption. now rewrite IHs.
    + destruct (Quote.is_trail c).
      * rewrite <- app_assoc, read_escape by assumption. now rewrite IHs.
      * rewrite <- app_assoc, read_quote_unit by assumption. now rewrite IHs.
Qed.

Lemma read_query_stringify (q : jsstring) :
  code_units q -> read_query (stringify_query q) = Some q.
Proof.
  intros Hq. unfold read_query, stringify_query, Quote.QuoteJSONString.
  cbn [app js map list_ascii_of_string strip_prefix].
  rewrite !N.eqb_refl, <- app_assoc.
  cbn [app]. rewrite (read_quote_units (List.length q) q (le_n _) Hq).
  reflexivity.
Qed.

(** ** Mount and dictation *)

Lemma mount_messages (supported : bool) (now : jsstring) :
  messages (mount supported now) =
  [assistantMessage (JStr welcome_content) now].
Proof. now destruct supported. Qed.

(** The timer that [toggleMicrophoneLearn] sets when it starts dictation
    carries a render in which nothing is being recorded, so that its
    callback calls nothing when it fires. *)
Lemma auto_stop_callback_is_inert (render : State) (cb : Callback) (ms : N) :
  In (setTimeout cb ms) (effects (fst (toggleMicrophoneLearn render))) ->
  ms = 3000%N ->
  cb = autoStop render /\ isRecordingLearn render = false /\
  run_callback cb = ret tt.
Proof.
  unfold toggleMicrophoneLearn, recognitionLearn_stop, recognitionLearn_start.
  destruct (recognitionLearn render), (loading render),
    (isRecordingLearn render) eqn:Hrec; simpl;
    intros H Hms; subst ms;
    repeat (destruct H as [H|H]; try discriminate H); try contradiction.
  injection H as <-. simpl. rewrite Hrec. auto.
Qed.

(** ** Submission *)

Lemma truthy_nonempty (s : jsstring) : s <> [] -> truthy s = true.
Proof. destruct s; simpl; congruence. Qed.

Lemma truthy_true (s : jsstring) : truthy s = true -> s <> [].
Proof. destruct s; simpl; congruence. Qed.

(** The synchronous part of [handleSubmit] on a draft that is not blank,
    in a consistent state. *)
Lemma handleSubmit_run (st : State) (now : jsstring) :
  consistent st -> trim (query st) <> [] ->
  handleSubmit st now =
  (perform preventDefault ::
   (if isRecordingLearn st then [perform recognition_stop] else []) ++
   [update (setMessages (fun prev => prev ++ [userMessage (query st) now]));
    update (setQuery []);
    update (setLoading true);
    update (setError None);
    perform (fetch {| url := learn_endpoint;
                      method := js "POST";
                      headers := [(js "Content-Type", js "application/json")];
                      body := stringify_query (query st) |})],
   Normal awaiting).
Proof.
  intros Hc Hq. unfold handleSubmit, userMessage.
  rewrite (truthy_nonempty _ Hq).
  destruct (isRecordingLearn st) eqn:Hrec; [|reflexivity].
  destruct (recognitionLearn st) eqn:Hr; [reflexivity|now elim (Hc Hrec)].
Qed.

Ltac break_match :=
  repeat match goal with
    | |- context [if ?b then _ else _] => destruct b eqn:?
    | |- context [match ?x with _ => _ end] => destruct x eqn:?
    end.

Section Properties.

Variable P : Platform.

(** What a step does to the two dictation cells. *)
Lemma step_recognition (st : State) (ev : Event) :
  recognitionLearn (step P st ev) = recognitionLearn st /\
  (isRecordingLearn (step P st ev) = true ->
   isRecordingLearn st = true \/ recognitionLearn st <> None).
Proof.
  unfold step. destruct ev; cbn [handle].
  - destruct (input_disabled st); simpl; auto.
  - destruct (input_disabled st); simpl; auto.
    unfold handleKeyPress, handleSubmit, recognitionLearn_stop.
    break_match; simpl; intuition congruence.
  - destruct (submit_disabled st); simpl; auto.
    unfold handleSubmit, recognitionLearn_stop.
    break_match; simpl; intuition congruence.
  - destruct (mic_disabled st); simpl; auto.
    unfold toggleMicrophoneLearn.
    destruct (recognitionLearn st) eqn:Hr; simpl;
      destruct (loading st); simpl; auto;
      destruct (isRecordingLearn st) eqn:Hi; simpl; rewrite ?Hr; simpl;
      split; auto; intros _; right; congruence.
  - destruct (export_disabled st); simpl; auto.
    rewrite quiet_handleCopyText; auto.
  - destruct (export_disabled st); simpl; auto.
    rewrite quiet_handleDownloadPDF; auto.
  - simpl; auto.
  - simpl; auto.
  - unfold onresult. break_match; simpl; auto.
  - simpl; split; auto; discriminate.
  - simpl; split; auto; discriminate.
  - rewrite quiet_run_callback; auto.
  - unfold handleSubmit_resume.
    destruct o as [|status [|data]]; simpl; auto.
    + destruct (ok status); simpl; auto.
    + destruct (ok status); simpl; auto.
      destruct (get_response data); simpl; auto.
Qed.

Lemma consistent_step (st : State) (ev : Event) :
  consistent st -> consistent (step P st ev).
Proof.
  intros Hc Hrec. destruct (step_recognition st ev) as [Hr Hi].
  rewrite Hr. destruct (Hi Hrec); auto.
Qed.

Lemma consistent_mount (supported : bool) (now : jsstring) :
  consistent (mount supported now).
Proof. destruct supported; intros H; discriminate. Qed.

Lemma reachable_consistent (st : State) : reachable P st -> consistent st.
Proof.
  induction 1; auto using consistent_mount, consistent_step.
Qed.

(** The rest of [handleSubmit] on a reply that could be read. *)
Lemma resume_reply (status : N) (data : Json) (reply : option Json)
    (now : jsstring) :
  ok status = true -> get_response data = Normal reply ->
  handleSubmit_resume (response status (parsed data)) now =
  ([perform (console_log (js "Learn API data:") data);
    update (setMessages (fun prev =>
      prev ++ [assistantMessage (or_else reply (JStr fallback_reply)) now]));
    update (setLoading false)],
   Normal tt).
Proof.
  intros Hok Hget. unfold handleSubmit_resume. simpl.
  rewrite Hok. simpl. rewrite Hget. reflexivity.
Qed.

Lemma resume_failed (o : Settled) (now : jsstring) :
  failed o ->
  handleSubmit_resume o now =
  ([update (setError (Some connect_error));
    perform (console_error (js "Learn API error:"));
    update (setLoading false)],
   Normal tt).
Proof.
  intros [->|(status & payload & -> & Hok)]; unfold handleSubmit_resume; simpl.
  - reflexivity.
  - now rewrite Hok.
Qed.

Lemma get_response_not_null (data : Json) :
  data <> JNull -> exists reply, get_response data = Normal reply.
Proof.
  destruct data; simpl; eauto. congruence.
Qed.

(** C1: for every draft that is not blank after trimming, a call of
    [handleSubmit] appends exactly one message of role user whose content
    is the draft at the end of the messages and empties the draft, all in
    its synchronous part, which ends with the request in flight. *)
Theorem submit_appends_user_message (st : State) (now : jsstring) :
  reachable P st -> trim (query st) <> [] ->
  let run := handleSubmit st now in
  snd run = Normal awaiting /\
  messages (commit st (fst run)) =
    messages st ++ [userMessage (query st) now] /\
  query (commit st (fst run)) = [] /\
  exists req, requests (fst run) = [req].
Proof.
  intros Hr Hq. cbv zeta.
  rewrite (handleSubmit_run st now (reachable_consistent st Hr) Hq).
  destruct (isRecordingLearn st); simpl; eauto.
Qed.

(** C2, amended: for every string X that is not empty, when the request
    succeeds with a 2xx status and the payload is the object whose
    response field is X, exactly one message of role assistant and of
    content X is appended, no call of [setError] is made and the error
    state stays as the submission left it, which is empty. *)
Theorem reply_appended (X : jsstring) (status : N) (now : jsstring) :
  X <> [] -> ok status = true ->
  let run := handleSubmit_resume (response status (parsed (reply_payload X))) now in
  snd run = Normal tt /\
  (forall st,
     messages (commit st (fst run)) =
       messages st ++ [assistantMessage (JStr X) now] /\
     error (commit st (fst run)) = error st) /\
  (forall a, In a (fst run) -> ~ sets_error a) /\
  (forall st now0,
     reachable P st -> trim (query st) <> [] ->
     error (commit (commit st (fst (handleSubmit st now0))) (fst run)) = None).
Proof.
  intros HX Hok. cbv zeta.
  rewrite (resume_reply status (reply_payload X) (Some (JStr X)) now Hok eq_refl).
  assert (E : or_else (Some (JStr X)) (JStr fallback_reply) = JStr X).
  { unfold or_else, ToBoolean. now rewrite (truthy_nonempty _ HX). }
  rewrite E. cbn [fst snd]. repeat split.
  - intros a [<-|[<-|[<-|[]]]] [e He]; discriminate.
  - intros st now0 Hr Hq.
    rewrite (handleSubmit_run st now0 (reachable_consistent st Hr) Hq).
    destruct (isRecordingLearn st); reflexivity.
Qed.

(** How the rest of [handleSubmit] leaves the error state: either the
    reply was read, or the fixed text is set. *)
Lemma resume_error_cases (o : Settled) (now : jsstring) :
  answered_with_payload o \/
  forall st,
    error (commit st (fst (handleSubmit_resume o now))) = Some connect_error.
Proof.
  unfold handleSubmit_resume.
  destruct o as [|status [|data]]; simpl.
  - now right.
  - right. now destruct (ok status).
  - destruct (ok status) eqn:Hok; simpl; [|now right].
    destruct data; simpl; try now right.
    all: left; eexists _, _; split; [reflexivity|split; [exact Hok|discriminate]].
Qed.

(** C3, amended: when the request is rejected or answered with a status
    that is not a 2xx one, no message is appended and the error state
    becomes the fixed text.  A later submission of a draft that is not
    blank empties the error state as soon as it is made, and the error
    state is still empty when its request has settled exactly when the
    answer has a 2xx status and a body that parses as JSON to a payload
    other than null. *)
Theorem failure_sets_error (o : Settled) (now : jsstring) :
  failed o ->
  let run := handleSubmit_resume o now in
  (forall st,
     messages (commit st (fst run)) = messages st /\
     error (commit st (fst run)) =
       Some (js "Unable to connect to archive. Please try again.")) /\
  (forall st now1,
     reachable P st -> trim (query st) <> [] ->
     error (commit st (fst (handleSubmit st now1))) = None /\
     forall o' now2,
       error (commit (commit st (fst (handleSubmit st now1)))
                     (fst (handleSubmit_resume o' now2))) = None <->
       answered_with_payload o').
Proof.
  intros Hf. cbv zeta. rewrite (resume_failed o now Hf). cbn [fst]. split.
  - intros st. split; reflexivity.
  - intros st now1 Hr Hq.
    rewrite (handleSubmit_run st now1 (reachable_consistent st Hr) Hq).
    split; [destruct (isRecordingLearn st); reflexivity|].
    intros o' now2. split.
    + intros H. destruct (resume_error_cases o' now2) as [Ho|Ho]; [exact Ho|].
      rewrite Ho in H. discriminate H.
    + intros (status & data & -> & Hok & Hd).
      destruct (get_response_not_null data Hd) as [reply Hget].
      rewrite (resume_reply status data reply now2 Hok Hget).
      destruct (isRecordingLearn st); reflexivity.
Qed.

(** C5, amended: when the request succeeds with a 2xx status and the
    parsed payload is not null and has no response field, exactly one
    message of role assistant is appended, its content is the fixed
    fallback text, and the error path is not taken. *)
Theorem missing_reply_falls_back (data : Json) (status : N) (now : jsstring) :
  ok status = true -> data <> JNull -> lacks_response data ->
  let run := handleSubmit_resume (response status (parsed data)) now in
  snd run = Normal tt /\
  (forall st,
     messages (commit st (fst run)) =
       messages st ++
       [assistantMessage (JStr (js "No response from archive.")) now] /\
     error (commit st (fst run)) = error st) /\
  (forall a, In a (fst run) -> ~ sets_error a).
Proof.
  intros Hok Hd Hl. cbv zeta.
  assert (Hget : get_response data = Normal None).
  { destruct data; simpl in *; try reflexivity; congruence. }
  rewrite (resume_reply status data None now Hok Hget).
  cbn [fst snd or_else]. repeat split.
  intros a [<-|[<-|[<-|[]]]] [e He]; discriminate.
Qed.

(** What a step does to the messages. *)
Lemma step_messages (st : State) (ev : Event) :
  messages (step P st ev) = messages st \/
  exists m, messages (step P st ev) = messages st ++ [m].
Proof.
  unfold step. destruct ev; cbn [handle].
  - destruct (input_disabled st); simpl; auto.
  - destruct (input_disabled st); simpl; auto.
    unfold handleKeyPress, handleSubmit, recognitionLearn_stop.
    break_match; simpl; eauto.
  - destruct (submit_disabled st); simpl; auto.
    unfold handleSubmit, recognitionLearn_stop.
    break_match; simpl; eauto.
  - destruct (mic_disabled st); simpl; auto.
    unfold toggleMicrophoneLearn, recognitionLearn_stop, recognitionLearn_start.
    break_match; simpl; auto.
  - destruct (export_disabled st); simpl; auto.
    rewrite quiet_handleCopyText; auto.
  - destruct (export_disabled st); simpl; auto.
    rewrite quiet_handleDownloadPDF; auto.
  - simpl; auto.
  - simpl; auto.
  - unfold onresult. break_match; simpl; auto.
  - simpl; auto.
  - simpl; auto.
  - rewrite quiet_run_callback; auto.
  - unfold handleSubmit_resume.
    destruct o as [|status [|data]]; simpl; auto.
    + destruct (ok status); simpl; auto.
    + destruct (ok status); simpl; auto.
      destruct (get_response data); simpl; eauto.
Qed.

(** C6: once mounted, every step keeps the messages it found as a prefix
    and appends at most one message at the end, so that over any run
    of events the earlier sequence is a prefix of the later one:
    nothing is changed, removed or moved. *)
Theorem messages_append_only (st : State) :
  (forall ev, exists suffix,
     messages (step P st ev) = messages st ++ suffix /\
     (List.length suffix <= 1)%nat) /\
  (forall evs, exists suffix,
     messages (steps P st evs) = messages st ++ suffix).
Proof.
  split.
  - intros ev. destruct (step_messages st ev) as [H|[m H]].
    + exists []. rewrite app_nil_r. auto.
    + exists [m]. auto.
  - intros evs. revert st.
    induction evs as [|ev evs IH]; intros st; cbn [steps].
    + exists []. now rewrite app_nil_r.
    + destruct (IH (step P st ev)) as [suffix ->].
      destruct (step_messages st ev) as [->|[m ->]].
      * now exists suffix.
      * exists (m :: suffix). now rewrite <- app_assoc.
Qed.

(** C10: whenever [handleSubmit] sends a request, it goes to the learn
    endpoint with the body [JSON.stringify] of the object whose query
    field is the content of the user message that the same call
    appended, the draft read before it was cleared; the receiver that
    reads the query of the body reads that content. *)
Theorem request_carries_submitted_draft (st : State) (now : jsstring)
    (req : Request) :
  In req (requests (fst (handleSubmit st now))) ->
  messages (commit st (fst (handleSubmit st now))) =
    messages st ++ [userMessage (query st) now] /\
  url req = learn_endpoint /\
  body req = stringify_query (query st) /\
  query (commit st (fst (handleSubmit st now))) = [] /\
  (code_units (query st) -> read_query (body req) = Some (query st)).
Proof.
  unfold handleSubmit, recognitionLearn_stop.
  break_match; cbn -[stringify_query read_query]; intros H;
    try contradiction; destruct H as [<-|[]];
    cbn -[stringify_query read_query];
    repeat split; auto using read_query_stringify.
Qed.

(** ** Plain-text export *)

Lemma join_intersperse (sep : jsstring) (l : list jsstring) :
  join sep l = List.concat (intersperse sep l).
Proof.
  induction l as [|a [|b l] IH].
  - reflexivity.
  - simpl. now rewrite app_nil_r.
  - change (join sep (a :: b :: l)) with (a ++ sep ++ join sep (b :: l)).
    rewrite IH. reflexivity.
Qed.

Lemma copy_block_text (m : Message) (t : jsstring) :
  ToString P (content m) = Normal t ->
  copy_block P m =
  ([], Normal (spec_block (toLocaleTimeString P (timestamp m)) (role m) t)).
Proof.
  intros H. unfold copy_block. rewrite H. simpl.
  unfold spec_block, role_label, nl. destruct (role m); reflexivity.
Qed.

Lemma map_copy_block (msgs : list Message) (texts : list jsstring) :
  Forall2 (fun m t => ToString P (content m) = Normal t) msgs texts ->
  map_M (copy_block P) msgs =
  ([], Normal
     (map (fun mt => spec_block (toLocaleTimeString P (timestamp (fst mt)))
                                (role (fst mt)) (snd mt))
          (combine msgs texts))).
Proof.
  induction 1 as [|m t msgs texts Hm _ IH]; [reflexivity|].
  cbn [map_M combine map]. rewrite (copy_block_text m t Hm), IH. reflexivity.
Qed.

(** C8: for every sequence of messages, with [texts] the contents as the
    template literal prints them (a string content is printed as it is),
    the text that [handleCopyText] writes to the clipboard is the
    sequence of the blocks [[time] ROLE:\ncontent\n] of the messages, one
    per message and in their order, with an empty line between two
    neighbours, where ROLE is YOU for a user and ARCHIVE for the
    assistant. *)
Theorem copy_text_is_blocks_in_order (st : State) (texts : list jsstring) :
  Forall2 (fun m t => ToString P (content m) = Normal t) (messages st) texts ->
  handleCopyText P st =
  ([perform (clipboard_writeText (spec_plain_text P (messages st) texts))],
   Normal tt) /\
  List.length (combine (messages st) texts) = List.length (messages st).
Proof.
  intros H. split.
  - unfold handleCopyText, conversationText.
    rewrite (map_copy_block _ _ H). simpl.
    now rewrite join_intersperse.
  - rewrite length_combine, (Forall2_length H). apply Nat.min_id.
Qed.

(** ** Document export *)

Lemma well_paginated_app (fresh : bool) (a b : list Action) :
  well_paginated P fresh a ->
  well_paginated P (fresh_after fresh a) b ->
  well_paginated P fresh (a ++ b).
Proof.
  revert fresh. induction a as [|x a IH]; intros fresh Ha Hb; [exact Hb|].
  destruct x as [u|e]; [exact (IH _ Ha Hb)|].
  destruct e; try exact (IH _ Ha Hb).
  destruct op; try exact (IH _ Ha Hb).
  cbn in Ha |- *. destruct Ha as (H1 & H2 & H3). auto.
Qed.

Lemma fresh_after_app (fresh : bool) (a b : list Action) :
  fresh_after fresh (a ++ b) = fresh_after (fresh_after fresh a) b.
Proof.
  revert fresh. induction a as [|x a IH]; intros fresh; [reflexivity|].
  destruct x as [u|e]; [exact (IH _)|].
  destruct e; try exact (IH _).
  destruct op; exact (IH _).
Qed.

Lemma snd_bind {A B} (m : M A) (k : A -> M B) :
  snd (bind m k) =
  match snd m with Normal a => snd (k a) | Throw e => Throw e end.
Proof.
  destruct m as [acts [a|e]]; simpl; [now destruct (k a)|reflexivity].
Qed.

Lemma gtb_false (a b : Q) : gtb a b = false -> a <= b.
Proof.
  unfold gtb. intros H. apply Qle_bool_iff.
  now destruct (Qle_bool a b).
Qed.

Hypothesis page_fits : 2 * margin <= pageHeight P.

Ltac run_pdf :=
  cbn [well_paginated P fresh_after fst snd bind effect ret lift app].

(** The check before a write: what follows starts from a cursor that is
    on the page, and at the top margin when a page was added. *)
Lemma paginates_guard (y : Q) (k : Q -> M Q) :
  margin <= y ->
  (forall y1 fresh,
     margin <= y1 -> y1 <= pageHeight P - margin ->
     (fresh = true -> y1 = margin) -> paginates P fresh (k y1)) ->
  paginates P false
    (yPosition <-
       (if gtb y (pageHeight P - margin)
        then effect (pdf addPage) ;; ret margin
        else ret y) ;;
     k yPosition).
Proof.
  intros Hy Hk. destruct (gtb y (pageHeight P - margin)) eqn:Hg.
  - assert (H : paginates P true (k margin)).
    { apply Hk; auto; [apply Qle_refl|unfold margin in *; lra]. }
    unfold paginates in *. run_pdf. destruct (k margin) as [acts r].
    exact H.
  - assert (H : paginates P false (k y)).
    { apply Hk; auto; [now apply gtb_false|discriminate]. }
    unfold paginates in *. run_pdf. destruct (k y) as [acts r].
    exact H.
Qed.

Lemma pdf_lines_paginates (lines : list jsstring) (y : Q) :
  margin <= y -> paginates P false (pdf_lines P lines y).
Proof.
  revert y. induction lines as [|l lines IH]; intros y Hy.
  - split; [exact I|split; [reflexivity|]]. intros y' [= <-]. exact Hy.
  - cbn [pdf_lines]. apply paginates_guard; [exact Hy|].
    intros y1 fresh Hlo Hhi Hfresh.
    destruct (IH (y1 + lineHeight)) as (H1 & H2 & H3).
    { unfold margin, lineHeight in *. lra. }
    unfold paginates. run_pdf.
    destruct (pdf_lines P lines (y1 + lineHeight)) as [acts r].
    run_pdf. cbn [fst snd] in H1, H2, H3. auto.
Qed.

Lemma pdf_message_paginates (msg : Message) (y : Q) :
  margin <= y -> paginates P false (pdf_message P msg y).
Proof.
  intros Hy. unfold pdf_message. apply paginates_guard; [exact Hy|].
  intros y1 fresh Hlo Hhi Hfresh. unfold paginates.
  destruct (splitTextToSize P (content msg) (pageWidth P - 2 * margin))
    as [lines|e]; run_pdf.
  - destruct (pdf_lines_paginates lines (y1 + lineHeight)) as (H1 & H2 & H3).
    { unfold margin, lineHeight in *. lra. }
    destruct (pdf_lines P lines (y1 + lineHeight)) as [acts [y2|e]];
      run_pdf; cbn [fst snd] in H1, H2, H3; rewrite ?app_nil_r.
    + split; [|split]; auto.
      intros y' [= <-]. specialize (H3 y2 eq_refl). lra.
    + split; [|split]; auto; discriminate.
  - split; [|split]; auto; discriminate.
Qed.

Lemma pdf_messages_paginates (msgs : list Message) (y : Q) :
  margin <= y -> paginates P false (pdf_messages P msgs y).
Proof.
  revert y. induction msgs as [|msg msgs IH]; intros y Hy.
  - split; [exact I|split; [reflexivity|]]. intros y' [= <-]. exact Hy.
  - cbn [pdf_messages].
    destruct (pdf_message_paginates msg y Hy) as (H1 & H2 & H3).
    unfold paginates. rewrite fst_bind, snd_bind.
    destruct (snd (pdf_message P msg y)) as [y1|e].
    + destruct (IH y1 (H3 y1 eq_refl)) as (I1 & I2 & I3).
      split; [|split]; auto.
      * apply well_paginated_app; [exact H1|now rewrite H2].
      * now rewrite fresh_after_app, H2.
    + rewrite app_nil_r. split; [|split]; auto; discriminate.
Qed.

(** The check itself: from a cursor below the bottom margin, a line and
    a header are preceded by a new page and written at the top margin. *)
Lemma line_breaks_page (l : jsstring) (rest : list jsstring) (y : Q) :
  ~ y <= pageHeight P - margin ->
  exists acts,
    fst (pdf_lines P (l :: rest) y) =
    perform (pdf addPage) :: perform (pdf (text l margin margin)) :: acts.
Proof.
  intros Hy. cbn [pdf_lines].
  destruct (gtb y (pageHeight P - margin)) eqn:Hg.
  - run_pdf. destruct (pdf_lines P rest (margin + lineHeight)) as [acts r].
    now exists acts.
  - now apply gtb_false in Hg.
Qed.

Lemma header_breaks_page (msg : Message) (y : Q) :
  ~ y <= pageHeight P - margin ->
  exists header acts,
    fst (pdf_message P msg y) =
    perform (pdf addPage) :: perform (pdf (setFont (js "courier") (js "bold")))
    :: perform (pdf (text header margin margin)) :: acts.
Proof.
  intros Hy. unfold pdf_message.
  destruct (gtb y (pageHeight P - margin)) eqn:Hg.
  - run_pdf.
    destruct (splitTextToSize P (content msg) (pageWidth P - 2 * margin))
      as [lines|e]; run_pdf.
    + destruct (pdf_lines P lines (margin + lineHeight)) as [acts [y2|e]];
        run_pdf; eauto.
    + eauto.
  - now apply gtb_false in Hg.
Qed.

(** C7: on a page that is at least two margins high, for every sequence
    of messages, every header line and every wrapped content line of the
    document is written between the top and the bottom margin; a line or a header that the cursor would put below
    the bottom margin is preceded by a new page and written at the top
    margin, as is the first line after every new page; the messages
    start below the heading, at a cursor that is not above the top
    margin. *)
Theorem pdf_never_writes_below_bottom_margin (msgs : list Message) :
  (forall y, margin <= y ->
     well_paginated P false (fst (pdf_messages P msgs y))) /\
  (forall generated, exists y,
     snd (pdf_heading P generated) = Normal y /\ margin <= y) /\
  (forall l rest y, ~ y <= pageHeight P - margin ->
     exists acts,
       fst (pdf_lines P (l :: rest) y) =
       perform (pdf addPage) :: perform (pdf (text l margin margin)) :: acts) /\
  (forall msg y, ~ y <= pageHeight P - margin ->
     exists header acts,
       fst (pdf_message P msg y) =
       perform (pdf addPage)
       :: perform (pdf (setFont (js "courier") (js "bold")))
       :: perform (pdf (text header margin margin)) :: acts).
Proof.
  split; [|split; [|split]].
  - intros y Hy. now destruct (pdf_messages_paginates msgs y Hy).
  - intros generated. exists (margin + 10 + 10 + 10). split; [reflexivity|].
    unfold margin. lra.
  - exact line_breaks_page.
  - exact header_breaks_page.
Qed.

End Properties.

Lemma reachable_steps (P : Platform) (st : State) (evs : list Event) :
  reachable P st -> reachable P (steps P st evs).
Proof.
  revert st. induction evs as [|ev evs IH]; intros st H; [exact H|].
  apply IH. now constructor.
Qed.

Lemma submit_appends_user_message_witness :
  reachable a4 drafted /\ trim (query drafted) <> [] /\
  messages (commit drafted (fst (handleSubmit drafted t1))) =
    messages drafted ++ [userMessage (js "hi") t1] /\
  query (commit drafted (fst (handleSubmit drafted t1))) = [].
Proof.
  assert (Hr : reachable a4 drafted) by (repeat constructor).
  assert (Hq : trim (query drafted) <> []) by (vm_compute; discriminate).
  destruct (submit_appends_user_message a4 drafted t1 Hr Hq) as (_ & H1 & H2 & _).
  exact (conj Hr (conj Hq (conj H1 H2))).
Defined.

(** The claim of C2 as it is written fails for the empty string, which
    [||] takes for a missing reply. *)
Lemma reply_appended_counterexample :
  ~ (forall (X : jsstring) (status : N) (now : jsstring) (st : State),
       ok status = true ->
       let run :=
         handleSubmit_resume (response status (parsed (reply_payload X))) now in
       messages (commit st (fst run)) =
         messages st ++ [assistantMessage (JStr X) now] /\
       error (commit st (fst run)) = error st).
Proof.
  intros H. destruct (H [] 200%N t2 initial eq_refl) as [H1 _].
  vm_compute in H1. discriminate H1.
Qed.

Lemma reply_appended_witness :
  js "Gopher predates the Web." <> [] /\ ok 200 = true /\
  messages (commit drafted (fst (handleSubmit_resume
     (response 200 (parsed (reply_payload (js "Gopher predates the Web.")))) t2))) =
  messages drafted ++ [assistantMessage (JStr (js "Gopher predates the Web.")) t2].
Proof.
  assert (HX : js "Gopher predates the Web." <> []) by (vm_compute; discriminate).
  assert (Hok : ok 200 = true) by reflexivity.
  destruct (reply_appended a4 _ 200%N t2 HX Hok) as (_ & H & _).
  exact (conj HX (conj Hok (proj1 (H drafted)))).
Defined.

Lemma failure_sets_error_witness :
  failed (response 503 invalid_json) /\
  messages (commit drafted (fst (handleSubmit_resume (response 503 invalid_json) t2)))
    = messages drafted /\
  error (commit drafted (fst (handleSubmit_resume (response 503 invalid_json) t2)))
    = Some (js "Unable to connect to archive. Please try again.").
Proof.
  assert (Hf : failed (response 503 invalid_json)).
  { right. exists 503%N, invalid_json. split; reflexivity. }
  destruct (failure_sets_error a4 _ t2 Hf) as (H & _).
  exact (conj Hf (H drafted)).
Defined.

(** The claim of C3 as it is written fails for a later submission that
    is answered with status 200 and a body that is not JSON: reading the
    body throws inside the try block and the fixed text is set again. *)
Lemma failure_sets_error_counterexample :
  ~ (forall (P : Platform) (st : State) (now1 : jsstring) (o' : Settled)
            (now2 : jsstring),
       reachable P st -> trim (query st) <> [] -> answered_2xx o' ->
       error (commit (commit st (fst (handleSubmit st now1)))
                     (fst (handleSubmit_resume o' now2))) = None).
Proof.
  intros H.
  assert (Hr : reachable a4 drafted) by (repeat constructor).
  assert (Hq : trim (query drafted) <> []) by (vm_compute; discriminate).
  assert (Ho : answered_2xx (response 200 invalid_json)).
  { exists 200%N, invalid_json. split; reflexivity. }
  specialize (H a4 drafted t1 (response 200 invalid_json) t2 Hr Hq Ho).
  vm_compute in H. discriminate H.
Qed.

(** The claim of C5 as it is written fails for the payload [null], which
    has no field: reading its reply throws, and the error path runs. *)
Lemma missing_reply_counterexample :
  ~ (forall (data : Json) (status : N) (now : jsstring) (st : State),
       ok status = true -> lacks_response data ->
       let run := handleSubmit_resume (response status (parsed data)) now in
       messages (commit st (fst run)) =
         messages st ++ [assistantMessage (JStr fallback_reply) now] /\
       error (commit st (fst run)) = error st).
Proof.
  intros H. destruct (H JNull 200%N t2 initial eq_refl I) as [H1 _].
  vm_compute in H1. discriminate H1.
Qed.

Lemma missing_reply_falls_back_witness :
  ok 200 = true /\ JObj [] <> JNull /\ lacks_response (JObj []) /\
  messages (commit drafted (fst (handleSubmit_resume
     (response 200 (parsed (JObj []))) t2))) =
  messages drafted ++ [assistantMessage (JStr (js "No response from archive.")) t2].
Proof.
  assert (Hok : ok 200 = true) by reflexivity.
  assert (Hd : JObj [] <> JNull) by discriminate.
  assert (Hl : lacks_response (JObj [])) by reflexivity.
  destruct (missing_reply_falls_back (JObj []) 200%N t2 Hok Hd Hl) as (_ & H & _).
  exact (conj Hok (conj Hd (conj Hl (proj1 (H drafted))))).
Defined.

Lemma request_carries_submitted_draft_witness :
  In {| url := learn_endpoint; method := js "POST";
        headers := [(js "Content-Type", js "application/json")];
        body := [123; 34; 113; 117; 101; 114; 121; 34; 58; 34; 104; 105; 34; 125]%N |}
     (requests (fst (handleSubmit drafted t1))) /\
  messages (commit drafted (fst (handleSubmit drafted t1))) =
    messages drafted ++ [userMessage (js "hi") t1] /\
  read_query [123; 34; 113; 117; 101; 114; 121; 34; 58; 34; 104; 105; 34; 125]%N =
    Some (js "hi").
Proof.
  assert (Hin : In {| url := learn_endpoint; method := js "POST";
        headers := [(js "Content-Type", js "application/json")];
        body := [123; 34; 113; 117; 101; 114; 121; 34; 58; 34; 104; 105; 34; 125]%N |}
     (requests (fst (handleSubmit drafted t1)))) by (left; reflexivity).
  destruct (request_carries_submitted_draft drafted t1 _ Hin)
    as (H1 & _ & _ & _ & H5).
  refine (conj Hin (conj H1 (H5 _))).
  repeat constructor.
Defined.

(** C9: the page is mounted with speech recognition and the microphone
    button is clicked.  Dictation starts and a timer of 3000 ms is set
    whose callback carries the render of the click, where
    [isRecordingLearn] is false: when it fires with the recording still
    on, it calls nothing, and the recording stays on. *)
Lemma auto_stop_timer_does_not_stop :
  let st0 := mount true t0 in
  let st1 := step a4 st0 MicClick in
  step_effects a4 st0 MicClick =
    [recognition_start; setTimeout (autoStop st0) 3000] /\
  isRecordingLearn st1 = true /\
  step_effects a4 st1 (TimerFired (autoStop st0)) = [] /\
  isRecordingLearn (step a4 st1 (TimerFired (autoStop st0))) = true.
Proof. repeat split. Qed.

Lemma pdf_never_writes_below_bottom_margin_witness :
  2 * margin <= pageHeight a4 /\
  margin <= margin + 10 + 10 + 10 /\
  well_paginated a4 false
    (fst (pdf_messages a4 [long_reply] (margin + 10 + 10 + 10))) /\
  page_breaks (fst (pdf_messages a4 [long_reply] (margin + 10 + 10 + 10))) = 2%nat.
Proof.
  assert (Hfit : 2 * margin <= pageHeight a4) by (vm_compute; discriminate).
  assert (Hy : margin <= margin + 10 + 10 + 10) by (vm_compute; discriminate).
  destruct (pdf_never_writes_below_bottom_margin a4 Hfit [long_reply]) as [H _].
  refine (conj Hfit (conj Hy (conj (H _ Hy) _))).
  vm_compute. reflexivity.
Defined.

Lemma copy_text_is_blocks_in_order_witness :
  Forall2 (fun m t => ToString a4 (content m) = Normal t)
    (messages hi_hello) [js "Hi"; js "Hello"] /\
  handleCopyText a4 hi_hello =
  ([perform (clipboard_writeText
      (js "[" ++ t1 ++ js "] YOU:" ++ [10%N] ++ js "Hi" ++ [10; 10]%N ++
       js "[" ++ t2 ++ js "] ARCHIVE:" ++ [10%N] ++ js "Hello" ++ [10%N]))],
   Normal tt).
Proof.
  assert (HF : Forall2 (fun m t => ToString a4 (content m) = Normal t)
                 (messages hi_hello) [js "Hi"; js "Hello"]).
  { repeat constructor. }
  exact (conj HF (proj1 (copy_text_is_blocks_in_order a4 hi_hello _ HF))).
Defined.

(** A failed submission followed by one that succeeds, event by event. *)
Example failure_then_success :
  let failed_once :=
    steps a4 (mount true t0)
      [Change (js "hi"); FormSubmit t1; FetchSettled rejected t2] in
  let recovered :=
    steps a4 failed_once
      [Change (js "again"); KeyPress (js "Enter") false t1;
       FetchSettled (response 200 (parsed (reply_payload (js "ok")))) t2] in
  error failed_once = Some connect_error /\
  loading failed_once = false /\
  messages failed_once =
    [assistantMessage (JStr welcome_content) t0; userMessage (js "hi") t1] /\
  error recovered = None /\
  messages recovered =
    messages failed_once ++
    [userMessage (js "again") t1; assistantMessage (JStr (js "ok")) t2].
Proof. repeat split. Qed.

(* ================================================================== *)
(** * Further properties of the handlers *)

(** ** The blank draft *)

Lemma trimStart_blank (s : jsstring) : blank s -> trimStart s = [].
Proof.
  induction 1 as [|c s Hc _ IH]; [reflexivity|].
  cbn [trimStart]. now rewrite Hc.
Qed.

Lemma trimStart_head (s : jsstring) (c : N) (t : jsstring) :
  trimStart s = c :: t -> isWhiteSpace c = false.
Proof.
  induction s as [|a s IH]; [discriminate|].
  cbn [trimStart]. destruct (isWhiteSpace a) eqn:Ha; [exact IH|].
  now intros [= <- _].
Qed.

Lemma trimStart_nil (s : jsstring) : trimStart s = [] -> blank s.
Proof.
  induction s as [|a s IH]; [constructor|].
  cbn [trimStart]. destruct (isWhiteSpace a) eqn:Ha; [|discriminate].
  intros H. constructor; [exact Ha|exact (IH H)].
Qed.

Lemma rev_nil_inv {A} (l : list A) : rev l = [] -> l = [].
Proof.
  intros H. apply (f_equal (@rev A)) in H. now rewrite rev_involutive in H.
Qed.

(** The guard [!query.trim()] holds exactly for the strings of white
    space. *)
Lemma trim_nil_iff (s : jsstring) : trim s = [] <-> blank s.
Proof.
  unfold trim, trimEnd. split.
  - intros H. apply rev_nil_inv, trimStart_nil in H.
    apply Forall_rev in H. rewrite rev_involutive in H.
    destruct (trimStart s) as [|c t] eqn:E; [now apply trimStart_nil|].
    apply trimStart_head in E. inversion H; congruence.
  - intros H. now rewrite (trimStart_blank s H).
Qed.

Lemma truthy_false (s : jsstring) : truthy s = false <-> s = [].
Proof. destruct s; simpl; split; congruence. Qed.

(** [handleSubmit] on a draft of white space only. *)
Lemma handleSubmit_blank (st : State) (now : jsstring) :
  blank (query st) ->
  handleSubmit st now = ([perform preventDefault], Normal returned).
Proof.
  intros H. unfold handleSubmit.
  apply trim_nil_iff in H. now rewrite H.
Qed.

Section Coverage.

Variable P : Platform.

(** X1: on a reachable page, [handleSubmit] sends no request exactly when
    the draft is empty or made of white space only, and then it changes
    nothing: no message, the draft kept, no loading. *)
Theorem blank_draft_is_not_submitted (st : State) (now : jsstring) :
  reachable P st ->
  (blank (query st) <-> requests (fst (handleSubmit st now)) = []) /\
  (blank (query st) ->
   commit st (fst (handleSubmit st now)) = st /\
   snd (handleSubmit st now) = Normal returned).
Proof.
  intros Hr. split; [split|].
  - intros H. now rewrite (handleSubmit_blank st now H).
  - intros H. apply trim_nil_iff.
    destruct (trim (query st)) as [|c t] eqn:E; [reflexivity|].
    assert (Hq : trim (query st) <> []) by congruence.
    rewrite (handleSubmit_run st now (reachable_consistent P st Hr) Hq) in H.
    destruct (isRecordingLearn st); discriminate H.
  - intros H. now rewrite (handleSubmit_blank st now H).
Qed.

End Coverage.

(** ** The Enter key *)

Lemma jsstring_eqb_eq (s t : jsstring) : JsString.eqb s t = true <-> s = t.
Proof.
  revert t. induction s as [|a s IH]; intros [|b t]; simpl;
    try (split; congruence).
  unfold code_eqb. rewrite andb_true_iff, N.eqb_eq, IH.
  split; [intros [-> ->]; reflexivity|intros [= -> ->]; auto].
Qed.

Lemma handleSubmit_blank_guard (st : State) (now : jsstring) :
  truthy (trim (query st)) = false ->
  handleSubmit st now = ([perform preventDefault], Normal returned).
Proof. intros H. unfold handleSubmit. now rewrite H. Qed.

Section EnterKey.

Variable P : Platform.

(** X2: a key press in the input submits only for the key Enter without
    Shift: any other key, and Enter with Shift, changes nothing and has
    no effect; Enter alone leaves the page in the state in which a
    submission of the form leaves it, and sends the same requests. *)
Theorem only_enter_submits (st : State) (now : jsstring) :
  (forall key shiftKey,
     key <> js "Enter" \/ shiftKey = true ->
     step P st (KeyPress key shiftKey now) = st /\
     step_effects P st (KeyPress key shiftKey now) = []) /\
  step P st (KeyPress (js "Enter") false now) = step P st (FormSubmit now) /\
  requests (fst (handle P st (KeyPress (js "Enter") false now))) =
    requests (fst (handle P st (FormSubmit now))).
Proof.
  unfold step, step_effects. cbn [handle]. split; [|split].
  - intros key shiftKey H. destruct (input_disabled st); [now split|].
    unfold handleKeyPress.
    destruct (JsString.eqb key (js "Enter")) eqn:E.
    + apply jsstring_eqb_eq in E. destruct H as [H| ->]; [contradiction|].
      now split.
    + now split.
  - unfold input_disabled, submit_disabled.
    destruct (loading st); [reflexivity|]. cbn [orb].
    unfold handleKeyPress, spawn.
    cbn [JsString.eqb js map list_ascii_of_string code_eqb N.eqb Pos.eqb
         N_of_ascii N_of_digits andb negb fst bind effect app commit].
    destruct (truthy (trim (query st))) eqn:Hq; [reflexivity|].
    now rewrite (handleSubmit_blank_guard st now Hq).
  - unfold input_disabled, submit_disabled.
    destruct (loading st); [reflexivity|]. cbn [orb].
    unfold handleKeyPress, spawn.
    cbn [JsString.eqb js map list_ascii_of_string code_eqb N.eqb Pos.eqb
         N_of_ascii N_of_digits andb negb fst bind effect app requests flat_map].
    destruct (truthy (trim (query st))) eqn:Hq; [reflexivity|].
    now rewrite (handleSubmit_blank_guard st now Hq).
Qed.

End EnterKey.

(** ** Dictation results *)

Lemma transcripts_acc (results : list RecognitionResult)
    (interim final : jsstring) :
  transcripts results interim final =
  (interim ++ interim_text results, final ++ final_text results).
Proof.
  revert interim final.
  induction results as [|[transcript isFinal] rest IH]; intros interim final.
  - unfold interim_text, final_text. simpl. now rewrite !app_nil_r.
  - cbn [transcripts]. destruct isFinal; rewrite IH;
      unfold interim_text, final_text; simpl; now rewrite <- app_assoc.
Qed.

(** X3: a recognition result replaces the draft by the transcripts of its
    final entries put together in their order when that text is not
    empty, else by the transcripts of its interim entries when that text
    is not empty, and else leaves the draft; it changes nothing else and
    has no effect. *)
Theorem onresult_prefers_final (results : list RecognitionResult) (st : State) :
  let st' := commit st (fst (onresult results)) in
  query st' =
    (if truthy (final_text results) then final_text results
     else if truthy (interim_text results) then interim_text results
     else query st) /\
  messages st' = messages st /\ loading st' = loading st /\
  error st' = error st /\ isRecordingLearn st' = isRecordingLearn st /\
  recognitionLearn st' = recognitionLearn st /\
  effects (fst (onresult results)) = [].
Proof.
  unfold onresult. rewrite transcripts_acc. cbn [app].
  destruct (truthy (final_text results)); [now simpl|].
  destruct (truthy (interim_text results)); [now simpl|].
  destruct st; now simpl.
Qed.

(** ** The conversation, step by step *)

Lemma truthy_trim (s : jsstring) : truthy (trim s) = true -> truthy s = true.
Proof. destruct s; [discriminate|reflexivity]. Qed.

Lemma requests_app (a b : list Action) :
  requests (a ++ b) = requests a ++ requests b.
Proof. apply flat_map_app. Qed.

Lemma offline_bind {A B} (m : M A) (k : A -> M B) :
  offline (fst m) -> (forall a, offline (fst (k a))) -> offline (fst (bind m k)).
Proof.
  unfold offline. intros Hm Hk. rewrite fst_bind, requests_app, Hm.
  destruct (snd m); [apply Hk|reflexivity].
Qed.

Section Lifecycle.

Variable P : Platform.

Lemma offline_map_M {A B} (f : A -> M B) (l : list A) :
  (forall a, offline (fst (f a))) -> offline (fst (map_M f l)).
Proof.
  intros Hf. induction l as [|a l IH]; cbn [map_M]; [reflexivity|].
  apply offline_bind; auto. intros b.
  apply offline_bind; auto. now intros bs.
Qed.

Lemma offline_handleCopyText (render : State) :
  offline (fst (handleCopyText P render)).
Proof.
  unfold handleCopyText, conversationText.
  apply offline_bind; [|now intros t].
  apply offline_bind; [|now intros t].
  apply offline_map_M. intros m. unfold copy_block.
  apply offline_bind; [|now intros t].
  now destruct (ToString P (content m)).
Qed.

Lemma offline_pdf_lines (lines : list jsstring) (y : Q) :
  offline (fst (pdf_lines P lines y)).
Proof.
  revert y; induction lines as [|l lines IH]; intros y; cbn [pdf_lines];
    [reflexivity|].
  apply offline_bind.
  - now destruct (gtb y (pageHeight P - margin)).
  - intros y'. apply offline_bind; [reflexivity|auto].
Qed.

Lemma offline_pdf_message (msg : Message) (y : Q) :
  offline (fst (pdf_message P msg y)).
Proof.
  unfold pdf_message. apply offline_bind.
  - now destruct (gtb y (pageHeight P - margin)).
  - intros y'. repeat (apply offline_bind; [|intros ?]);
      try reflexivity; auto using offline_pdf_lines;
      try now destruct (splitTextToSize P (content msg) (pageWidth P - 2 * margin)).
Qed.

Lemma offline_pdf_messages (msgs : list Message) (y : Q) :
  offline (fst (pdf_messages P msgs y)).
Proof.
  revert y; induction msgs as [|m msgs IH]; intros y; cbn [pdf_messages];
    [reflexivity|].
  apply offline_bind; auto using offline_pdf_message.
Qed.

Lemma offline_handleDownloadPDF (render : State) (generated epoch : jsstring) :
  offline (fst (handleDownloadPDF P render generated epoch)).
Proof.
  unfold handleDownloadPDF.
  apply offline_bind; [reflexivity|intros y].
  apply offline_bind; [apply offline_pdf_messages|intros y'].
  apply offline_bind; [reflexivity|now intros _].
Qed.

Lemma or_else_truthy (reply : option Json) :
  ToBoolean (or_else reply (JStr fallback_reply)) = true.
Proof.
  destruct reply as [v|]; [|reflexivity].
  unfold or_else. now destruct (ToBoolean v) eqn:E.
Qed.

Lemma resume_conversation (st : State) (o : Settled) (now : jsstring) :
  conversation_step st (commit st (fst (handleSubmit_resume o now))).
Proof.
  unfold handleSubmit_resume.
  destruct o as [|status [|data]]; simpl.
  - now apply cs_failure.
  - destruct (ok status); simpl; now apply cs_failure.
  - destruct (ok status); simpl; [|now apply cs_failure].
    destruct (get_response data) as [reply|e]; simpl.
    + eapply cs_reply; simpl; eauto using or_else_truthy.
    + now apply cs_failure.
Qed.

Lemma submit_conversation (st : State) (now : jsstring) :
  loading st = false ->
  conversation_step st (commit st (fst (handleSubmit st now))).
Proof.
  intros Hl. unfold handleSubmit, recognitionLearn_stop.
  destruct (truthy (trim (query st))) eqn:Hq; simpl.
  - destruct (isRecordingLearn st); [destruct (recognitionLearn st)|]; simpl;
      try (now apply cs_same); now apply (cs_submit st _ now).
  - now apply cs_same.
Qed.

Lemma step_conversation (st : State) (ev : Event) :
  conversation_step st (step P st ev).
Proof.
  unfold step. destruct ev; cbn [handle].
  - destruct (input_disabled st); simpl; now apply cs_same.
  - unfold input_disabled. destruct (loading st) eqn:Hl; [now apply cs_same|].
    unfold handleKeyPress.
    destruct (JsString.eqb key (js "Enter") && negb shiftKey);
      [|now apply cs_same].
    apply (submit_conversation st now Hl).
  - unfold submit_disabled. destruct (loading st) eqn:Hl; [now apply cs_same|].
    cbn [orb]. destruct (negb (truthy (trim (query st)))); [now apply cs_same|].
    apply (submit_conversation st now Hl).
  - destruct (mic_disabled st); [now apply cs_same|].
    unfold toggleMicrophoneLearn, recognitionLearn_stop, recognitionLearn_start.
    break_match; simpl; now apply cs_same.
  - destruct (export_disabled st); [now apply cs_same|].
    rewrite quiet_handleCopyText. now apply cs_same.
  - destruct (export_disabled st); [now apply cs_same|].
    rewrite quiet_handleDownloadPDF. now apply cs_same.
  - now apply cs_same.
  - now apply cs_same.
  - unfold onresult. break_match; simpl; now apply cs_same.
  - now apply cs_same.
  - now apply cs_same.
  - rewrite quiet_run_callback. now apply cs_same.
  - apply resume_conversation.
Qed.

End Lifecycle.

(** ** Invariants of the page *)

Lemma resume_loading (o : Settled) (now : jsstring) (st : State) :
  loading (commit st (fst (handleSubmit_resume o now))) = false.
Proof.
  unfold handleSubmit_resume.
  destruct o as [|status [|data]]; simpl; auto.
  - destruct (ok status); reflexivity.
  - destruct (ok status); simpl; auto.
    destruct (get_response data); reflexivity.
Qed.

Section Invariants.

Variable P : Platform.

(** X4: every outcome of the request is handled: the rest of
    [handleSubmit] never throws, always ends with [loading] false and
    the draft untouched, and either appends one assistant message whose
    content is not a falsy value and leaves the error state, or appends
    nothing and sets the error state to the fixed text. *)
Theorem resume_always_settles (o : Settled) (now : jsstring) (st : State) :
  let st' := commit st (fst (handleSubmit_resume o now)) in
  snd (handleSubmit_resume o now) = Normal tt /\
  loading st' = false /\ query st' = query st /\
  ((exists m, messages st' = messages st ++ [m] /\ role m = assistant /\
              ToBoolean (content m) = true /\ error st' = error st) \/
   (messages st' = messages st /\ error st' = Some connect_error)).
Proof.
  unfold handleSubmit_resume.
  destruct o as [|status [|data]]; simpl.
  - auto 6.
  - destruct (ok status); simpl; auto 6.
  - destruct (ok status); simpl; auto 6.
    destruct (get_response data) as [reply|e]; simpl; auto 6.
    repeat split; auto. left. eexists. repeat split.
    apply or_else_truthy.
Qed.

(** X5: no message of a reachable page has a falsy content: neither the
    welcome, nor a submitted draft, nor a reply is ever the empty
    string. *)
Theorem no_empty_message (st : State) :
  reachable P st ->
  Forall (fun m => ToBoolean (content m) = true) (messages st).
Proof.
  induction 1 as [supported now|st ev Hr IH].
  - rewrite mount_messages. now repeat constructor.
  - destruct (step_conversation P st ev) as [E _ _|now _ Hq E _ _ _|m E _ Hm _ _|E _ _];
      rewrite E; auto; apply Forall_app; split; auto; repeat constructor; auto.
    simpl. now apply truthy_trim.
Qed.

(** X6: the welcome message of the mount stays the first message of every
    reachable page. *)
Theorem welcome_stays_first (st : State) :
  reachable P st ->
  exists now rest,
    messages st = assistantMessage (JStr welcome_content) now :: rest.
Proof.
  induction 1 as [supported now|st ev Hr (now & rest & IH)].
  - exists now, []. apply mount_messages.
  - destruct (step_messages P st ev) as [->|[m ->]].
    + now exists now, rest.
    + exists now, (rest ++ [m]). now rewrite IH.
Qed.

(** X7: the error state of a reachable page is empty or the one fixed
    text. *)
Theorem error_is_the_fixed_text (st : State) :
  reachable P st ->
  error st = None \/
  error st = Some (js "Unable to connect to archive. Please try again.").
Proof.
  induction 1 as [supported now|st ev Hr IH].
  - left. now destruct supported.
  - destruct (step_conversation P st ev) as [_ _ E|now _ _ _ _ E _|m _ _ _ _ E|_ _ E];
      rewrite E; auto.
Qed.

(** X8: while a reachable page is loading, the last message of the
    conversation is a message of the user. *)
Theorem loading_follows_user_message (st : State) :
  reachable P st -> loading st = true ->
  exists earlier m, messages st = earlier ++ [m] /\ role m = user.
Proof.
  induction 1 as [supported now|st ev Hr IH].
  - now destruct supported.
  - destruct (step_conversation P st ev) as [E L _|now _ _ E _ _ _|m _ _ _ L _|_ L _].
    + rewrite E, L. exact IH.
    + intros _. rewrite E. now exists (messages st), (userMessage (query st) now).
    + congruence.
    + congruence.
Qed.

Lemma steps_recognition (st : State) (evs : list Event) :
  recognitionLearn (steps P st evs) = recognitionLearn st.
Proof.
  revert st. induction evs as [|ev evs IH]; intros st; [reflexivity|].
  cbn [steps]. rewrite IH. apply step_recognition.
Qed.

(** X9: the recognition instance is stored at mount and no event replaces
    or clears it; in a browser without speech recognition, no run of
    events ever switches recording on. *)
Theorem recognition_is_set_once (st : State) (evs : list Event) :
  recognitionLearn (steps P st evs) = recognitionLearn st /\
  (forall now, isRecordingLearn (steps P (mount false now) evs) = false).
Proof.
  split; [apply steps_recognition|].
  intros now.
  assert (Hr : reachable P (steps P (mount false now) evs)).
  { apply reachable_steps. constructor. }
  apply reachable_consistent in Hr.
  destruct (isRecordingLearn (steps P (mount false now) evs)) eqn:E;
    [|reflexivity].
  specialize (Hr E). now rewrite steps_recognition in Hr.
Qed.

(** X10: both exports only read the page: whatever the messages, and also
    when printing a content throws, the state after the click is the
    state before, and nothing is sent to the archive; and with at most
    one message, the welcome, the buttons are disabled and the click has
    no effect at all. *)
Theorem exports_only_read (st : State) (generated epoch : jsstring) :
  step P st CopyClick = st /\
  step P st (PdfClick generated epoch) = st /\
  requests (fst (handle P st CopyClick)) = [] /\
  requests (fst (handle P st (PdfClick generated epoch))) = [] /\
  ((List.length (messages st) <= 1)%nat ->
   step_effects P st CopyClick = [] /\
   step_effects P st (PdfClick generated epoch) = []).
Proof.
  unfold step, step_effects. cbn [handle].
  repeat split.
  - destruct (export_disabled st); [reflexivity|apply quiet_handleCopyText].
  - destruct (export_disabled st); [reflexivity|apply quiet_handleDownloadPDF].
  - destruct (export_disabled st); [reflexivity|apply offline_handleCopyText].
  - destruct (export_disabled st); [reflexivity|apply offline_handleDownloadPDF].
  - unfold export_disabled. apply Nat.leb_le in H. now rewrite H.
  - unfold export_disabled. apply Nat.leb_le in H. now rewrite H.
Qed.

(** X11: with the microphone button enabled and nothing being recorded,
    a first click starts the recognition and sets the 3000 ms timer, a
    second click stops it and schedules the focus of the input, and the
    page is back in the state before the first click. *)
Theorem toggle_twice_restores (st : State) :
  mic_disabled st = false -> isRecordingLearn st = false ->
  step_effects P st MicClick =
    [recognition_start; setTimeout (autoStop st) 3000] /\
  isRecordingLearn (step P st MicClick) = true /\
  step_effects P (step P st MicClick) MicClick =
    [recognition_stop; setTimeout focusInput 100] /\
  step P (step P st MicClick) MicClick = st.
Proof.
  unfold step, step_effects, mic_disabled. cbn [handle].
  unfold mic_disabled, toggleMicrophoneLearn, recognitionLearn_stop,
    recognitionLearn_start.
  destruct st as [q ms l e r [rec|]]; simpl; intros Hd Hr; subst;
    destruct l; try discriminate; simpl; auto.
Qed.

End Invariants.

(** ** One request at a time *)

Lemma submit_requests (st : State) (now : jsstring) :
  requests (fst (handleSubmit st now)) = [] \/
  exists r,
    requests (fst (handleSubmit st now)) = [r] /\
    loading (commit st (fst (handleSubmit st now))) = true.
Proof.
  unfold handleSubmit, recognitionLearn_stop.
  break_match; simpl; eauto.
Qed.

Section OneRequest.

Variable P : Platform.

(** An event other than the settling of the request: under [loading] it
    sends nothing and [loading] stays; otherwise it sends at most one
    request, and [loading] is true after it sent one. *)
Lemma step_requests (st : State) (ev : Event) :
  is_settle ev = false ->
  (loading st = true ->
   requests (fst (handle P st ev)) = [] /\ loading (step P st ev) = true) /\
  (requests (fst (handle P st ev)) = [] \/
   exists r, requests (fst (handle P st ev)) = [r] /\
             loading (step P st ev) = true).
Proof.
  intros Hev. unfold step. destruct ev; try discriminate Hev; cbn [handle].
  - destruct (input_disabled st); simpl; auto.
  - unfold input_disabled. destruct (loading st) eqn:Hl; simpl; auto.
    split; [discriminate|].
    unfold handleKeyPress.
    destruct (JsString.eqb key (js "Enter") && negb shiftKey); simpl; auto.
    apply submit_requests.
  - unfold submit_disabled. destruct (loading st) eqn:Hl; simpl; auto.
    split; [discriminate|].
    destruct (negb (truthy (trim (query st)))); simpl; auto.
    apply submit_requests.
  - destruct (mic_disabled st); simpl; auto.
    unfold toggleMicrophoneLearn, recognitionLearn_stop, recognitionLearn_start.
    break_match; simpl; auto.
  - destruct (export_disabled st); simpl; auto.
    rewrite quiet_handleCopyText, offline_handleCopyText. auto.
  - destruct (export_disabled st); simpl; auto.
    rewrite quiet_handleDownloadPDF, offline_handleDownloadPDF. auto.
  - simpl; auto.
  - simpl; auto.
  - unfold onresult. break_match; simpl; auto.
  - simpl; auto.
  - simpl; auto.
  - rewrite quiet_run_callback.
    assert (E : requests (fst (run_callback cb)) = []).
    { destruct cb as [|r| |]; simpl; auto.
      unfold recognitionLearn_stop. break_match; reflexivity. }
    rewrite E. auto.
Qed.

(** Under [loading], an event other than the settling of the request
    leaves the messages. *)
Lemma step_messages_loading (st : State) (ev : Event) :
  is_settle ev = false -> loading st = true ->
  messages (step P st ev) = messages st.
Proof.
  intros Hev Hl.
  destruct (step_requests st ev Hev) as [Hs _].
  destruct (Hs Hl) as [_ Hl'].
  destruct (step_conversation P st ev) as [E _ _|now L _ _ _ _ _|m _ _ _ L _|E _ _];
    auto; congruence.
Qed.

(** C4: while a request is in flight, that is while [loading] is true,
    every submission that the page can make is a no-op.  A submission of
    the form and a key press in the input leave the state as it is and
    have no effect; and over any run of events before the request
    settles, with submissions repeated and mixed with typing, dictation,
    timers and exports, no message is appended, no request is sent and
    [loading] stays true. *)
Theorem no_submission_while_loading (st : State) :
  loading st = true ->
  (forall now,
     step P st (FormSubmit now) = st /\
     step_effects P st (FormSubmit now) = []) /\
  (forall key shiftKey now,
     step P st (KeyPress key shiftKey now) = st /\
     step_effects P st (KeyPress key shiftKey now) = []) /\
  (forall evs,
     forallb (fun ev => negb (is_settle ev)) evs = true ->
     messages (steps P st evs) = messages st /\
     run_requests P st evs = [] /\
     loading (steps P st evs) = true).
Proof.
  intros Hl. split; [|split].
  - intros now. unfold step, step_effects, handle, submit_disabled.
    rewrite Hl. now split.
  - intros key shiftKey now. unfold step, step_effects, handle, input_disabled.
    rewrite Hl. now split.
  - intros evs. revert st Hl.
    induction evs as [|ev evs IH]; intros st Hl Hevs; [now repeat split|].
    cbn [forallb] in Hevs. apply andb_true_iff in Hevs.
    destruct Hevs as [Hev Hevs]. apply negb_true_iff in Hev.
    destruct (step_requests st ev Hev) as [Hs _].
    destruct (Hs Hl) as [Hreq Hl'].
    destruct (IH (step P st ev) Hl' Hevs) as (I1 & I2 & I3).
    cbn [steps run_requests].
    rewrite I1, I2, Hreq, (step_messages_loading st ev Hev Hl).
    now repeat split.
Qed.

(** X12: whatever the user, the recognition and the timers do, as long as
    the request has not settled the page sends at most one request; none
    at all once it is loading. *)
Theorem one_request_until_settled (evs : list Event) (st : State) :
  forallb (fun ev => negb (is_settle ev)) evs = true ->
  (List.length (run_requests P st evs) <= 1)%nat /\
  (loading st = true -> run_requests P st evs = []).
Proof.
  revert st. induction evs as [|ev evs IH]; intros st Hevs.
  - split; [simpl; lia|reflexivity].
  - cbn [forallb] in Hevs. apply andb_true_iff in Hevs.
    destruct Hevs as [Hev Hevs]. apply negb_true_iff in Hev.
    destruct (step_requests st ev Hev) as [Hl Hr].
    destruct (IH (step P st ev) Hevs) as [IH1 IH2].
    cbn [run_requests]. split.
    + destruct Hr as [->|(r & -> & Hl')]; [exact IH1|].
      rewrite (IH2 Hl'). simpl. lia.
    + intros L. destruct (Hl L) as [-> L']. now rewrite (IH2 L').
Qed.

(** X13: on a reachable page whose submit button is enabled, submitting
    the form disables the input, the microphone button and the submit
    button; and when the request settles without a new message, or with
    a new message whose content is a string, the input is enabled
    again. *)
Theorem pending_disables_controls (st : State) (now : jsstring) :
  reachable P st -> submit_disabled st = false ->
  let pending := step P st (FormSubmit now) in
  input_disabled pending = true /\ mic_disabled pending = true /\
  submit_disabled pending = true /\
  forall o now',
    let settled := step P pending (FetchSettled o now') in
    (forall m, messages settled = messages pending ++ [m] ->
               exists s, content m = JStr s) ->
    input_disabled settled = false.
Proof.
  intros Hr Hd. cbv zeta. unfold step at 1 2 3. cbn [handle]. rewrite Hd.
  unfold submit_disabled in Hd. apply orb_false_iff in Hd.
  destruct Hd as [_ Hq]. apply negb_false_iff, truthy_true in Hq.
  unfold spawn. cbn [fst].
  rewrite (handleSubmit_run st now (reachable_consistent P st Hr) Hq).
  cbn [fst]. repeat split.
  - destruct (isRecordingLearn st); reflexivity.
  - destruct (isRecordingLearn st); reflexivity.
  - destruct (isRecordingLearn st); reflexivity.
  - intros o now' _. unfold input_disabled, step. cbn [handle].
    apply resume_loading.
Qed.

(** X14: submitting on a reachable page while dictation is recording
    stops the recognition, once and before the request is sent, and
    leaves [isRecordingLearn] as it is, for the recognition to clear when
    it ends. *)
Theorem submit_stops_recording (st : State) (now : jsstring) :
  reachable P st -> trim (query st) <> [] -> isRecordingLearn st = true ->
  effects (fst (handleSubmit st now)) =
    [preventDefault; recognition_stop;
     fetch {| url := learn_endpoint; method := js "POST";
              headers := [(js "Content-Type", js "application/json")];
              body := stringify_query (query st) |}] /\
  isRecordingLearn (commit st (fst (handleSubmit st now))) = true.
Proof.
  intros Hr Hq Hrec.
  rewrite (handleSubmit_run st now (reachable_consistent P st Hr) Hq), Hrec.
  split; [reflexivity|]. simpl. exact Hrec.
Qed.

End OneRequest.

(** ** The document, line by line *)


Lemma saves_app (a b : list Action) : saves (a ++ b) = saves a ++ saves b.
Proof.
  induction a as [|[u|[]] a IH]; simpl; auto.
  destruct op; simpl; auto. now rewrite IH.
Qed.

Lemma only_pdf_bind {A B} (m : M A) (k : A -> M B) :
  only_pdf (fst m) -> (forall a, only_pdf (fst (k a))) ->
  only_pdf (fst (bind m k)).
Proof.
  unfold only_pdf. intros Hm Hk. rewrite fst_bind. apply Forall_app.
  split; [exact Hm|]. destruct (snd m); [apply Hk|constructor].
Qed.

Lemma only_pdf_effect (op : PdfOp) : only_pdf (fst (effect (pdf op))).
Proof. repeat constructor. now exists op. Qed.

Lemma only_pdf_silent (acts : list Action) (message : jsstring) :
  only_pdf acts -> ~ In (notification_append message) (effects acts).
Proof.
  induction 1 as [|a acts [op ->] _ IH]; [now simpl|].
  simpl. intros [H|H]; [discriminate H|exact (IH H)].
Qed.

Lemma laid_out_app (last : option Q) (a b : list Action) :
  laid_out last a -> laid_out (last_after last a) b -> laid_out last (a ++ b).
Proof.
  revert last. induction a as [|x a IH]; intros last Ha Hb; [exact Hb|].
  destruct x as [u|e]; [exact (IH _ Ha Hb)|].
  destruct e; try exact (IH _ Ha Hb).
  destruct op; try exact (IH _ Ha Hb);
    cbn in Ha |- *; destruct Ha as [H1 H2]; split; auto.
Qed.

Lemma last_after_app (last : option Q) (a b : list Action) :
  last_after last (a ++ b) = last_after (last_after last a) b.
Proof. apply fold_left_app. Qed.

Section Document.

Variable P : Platform.

Ltac run_doc :=
  cbn [laid_out last_after fold_left written_texts saves flat_map
       fst snd bind effect ret lift app].

Lemma only_pdf_lines (lines : list jsstring) (y : Q) :
  only_pdf (fst (pdf_lines P lines y)).
Proof.
  revert y. induction lines as [|l lines IH]; intros y; cbn [pdf_lines];
    [constructor|].
  apply only_pdf_bind.
  - destruct (gtb y (pageHeight P - margin)); [|constructor].
    apply only_pdf_bind; [apply only_pdf_effect|intros; constructor].
  - intros y'. apply only_pdf_bind; [apply only_pdf_effect|auto].
Qed.

Lemma only_pdf_message (msg : Message) (y : Q) :
  only_pdf (fst (pdf_message P msg y)).
Proof.
  unfold pdf_message. apply only_pdf_bind.
  - destruct (gtb y (pageHeight P - margin)); [|constructor].
    apply only_pdf_bind; [apply only_pdf_effect|intros; constructor].
  - intros y'.
    repeat (apply only_pdf_bind; [try apply only_pdf_effect|intros ?]);
      try apply only_pdf_lines; try constructor;
      try (destruct (splitTextToSize P (content msg) (pageWidth P - 2 * margin));
           constructor).
Qed.

Lemma only_pdf_messages (msgs : list Message) (y : Q) :
  only_pdf (fst (pdf_messages P msgs y)).
Proof.
  revert y. induction msgs as [|m msgs IH]; intros y; cbn [pdf_messages];
    [constructor|].
  apply only_pdf_bind; auto using only_pdf_message.
Qed.

Lemma pdf_lines_result (lines : list jsstring) (y : Q) :
  exists y', snd (pdf_lines P lines y) = Normal y'.
Proof.
  revert y. induction lines as [|l lines IH]; intros y; cbn [pdf_lines].
  - now exists y.
  - destruct (gtb y (pageHeight P - margin)); run_doc.
    + destruct (IH (margin + lineHeight)) as [y' E].
      destruct (pdf_lines P lines (margin + lineHeight)). now exists y'.
    + destruct (IH (y + lineHeight)) as [y' E].
      destruct (pdf_lines P lines (y + lineHeight)). now exists y'.
Qed.

Lemma pdf_lines_texts (lines : list jsstring) (y : Q) :
  written_texts (fst (pdf_lines P lines y)) = lines /\
  saves (fst (pdf_lines P lines y)) = [].
Proof.
  revert y. induction lines as [|l lines IH]; intros y; cbn [pdf_lines].
  - now split.
  - destruct (gtb y (pageHeight P - margin)); run_doc.
    + destruct (IH (margin + lineHeight)) as [E1 E2].
      destruct (pdf_lines P lines (margin + lineHeight)). run_doc.
      cbn [fst] in E1, E2. now rewrite E1, E2.
    + destruct (IH (y + lineHeight)) as [E1 E2].
      destruct (pdf_lines P lines (y + lineHeight)). run_doc.
      cbn [fst] in E1, E2. now rewrite E1, E2.
Qed.

(** A message whose content is split into [lines]: its header, then the
    lines. *)
Lemma pdf_message_texts (msg : Message) (lines : list jsstring) (y : Q) :
  splitTextToSize P (content msg) (pageWidth P - 2 * margin) = Normal lines ->
  written_texts (fst (pdf_message P msg y)) = pdf_header P msg :: lines /\
  saves (fst (pdf_message P msg y)) = [] /\
  exists y', snd (pdf_message P msg y) = Normal y'.
Proof.
  intros Hs. unfold pdf_message, pdf_header. rewrite Hs.
  assert (H : forall y1,
    written_texts (fst (pdf_lines P lines y1)) = lines /\
    saves (fst (pdf_lines P lines y1)) = [] /\
    exists y', snd (pdf_lines P lines y1) = Normal y').
  { intros y1. destruct (pdf_lines_texts lines y1).
    auto using pdf_lines_result. }
  destruct (gtb y (pageHeight P - margin)); run_doc.
  - destruct (H (margin + lineHeight)) as (E1 & E2 & y' & E3).
    destruct (pdf_lines P lines (margin + lineHeight)) as [acts r].
    cbn [fst snd] in E1, E2, E3. subst r. run_doc.
    rewrite app_nil_r, E1, E2. eauto.
  - destruct (H (y + lineHeight)) as (E1 & E2 & y' & E3).
    destruct (pdf_lines P lines (y + lineHeight)) as [acts r].
    cbn [fst snd] in E1, E2, E3. subst r. run_doc.
    rewrite app_nil_r, E1, E2. eauto.
Qed.



Lemma pdf_message_throws (m : Message) (e : Exn) (y : Q) :
  splitTextToSize P (content m) (pageWidth P - 2 * margin) = Throw e ->
  snd (pdf_message P m y) = Throw e /\ saves (fst (pdf_message P m y)) = [].
Proof.
  intros H. unfold pdf_message. rewrite H.
  destruct (gtb y (pageHeight P - margin)); now run_doc.
Qed.

Lemma pdf_message_saves (m : Message) (y : Q) :
  saves (fst (pdf_message P m y)) = [].
Proof.
  destruct (splitTextToSize P (content m) (pageWidth P - 2 * margin))
    as [lines|e] eqn:E.
  - apply (pdf_message_texts m lines y E).
  - apply (pdf_message_throws m e y E).
Qed.

Lemma pdf_messages_throw (msgs : list Message) (m : Message) (e : Exn) (y : Q) :
  In m msgs ->
  splitTextToSize P (content m) (pageWidth P - 2 * margin) = Throw e ->
  (exists e', snd (pdf_messages P msgs y) = Throw e') /\
  saves (fst (pdf_messages P msgs y)) = [].
Proof.
  intros Hin Hm. revert y.
  induction msgs as [|a msgs IH]; intros y; [contradiction|].
  cbn [pdf_messages]. rewrite fst_bind, snd_bind, saves_app, pdf_message_saves.
  destruct (snd (pdf_message P a y)) as [y1|e1] eqn:E.
  - destruct Hin as [->|Hin].
    + destruct (pdf_message_throws m e y Hm) as [E' _]. congruence.
    + destruct (IH Hin y1) as [I1 I2]. auto.
  - split; [now exists e1|reflexivity].
Qed.

(** X16: when the content of some message cannot be split into lines,
    the export stops with that exception: no file is saved and no
    notification is shown. *)
Theorem document_not_saved_on_throw (st : State) (m : Message) (e : Exn)
    (generated epoch : jsstring) :
  In m (messages st) ->
  splitTextToSize P (content m) (pageWidth P - 2 * margin) = Throw e ->
  (exists e', snd (handleDownloadPDF P st generated epoch) = Throw e') /\
  saves (fst (handleDownloadPDF P st generated epoch)) = [] /\
  forall message,
    ~ In (notification_append message)
         (effects (fst (handleDownloadPDF P st generated epoch))).
Proof.
  intros Hin Hm. unfold handleDownloadPDF, pdf_heading, showNotification.
  destruct (pdf_messages_throw (messages st) m e (margin + 10 + 10 + 10) Hin Hm)
    as ((e' & E1) & E2).
  run_doc.
  assert (N : forall message,
    ~ In (notification_append message)
         (effects (fst (pdf_messages P (messages st) (margin + 10 + 10 + 10))))).
  { intros message. apply only_pdf_silent, only_pdf_messages. }
  destruct (pdf_messages P (messages st) (margin + 10 + 10 + 10)) as [acts r].
  cbn [fst snd] in E1, E2, N. subst r. run_doc.
  split; [eauto|]. split; [exact E2|].
  intros message H. simpl in H.
  repeat (destruct H as [H|H]; [discriminate H|]).
  exact (N message H).
Qed.

End Document.

(** ** The layout of the pages *)

Section Layout.

Variable P : Platform.

Ltac run_layout :=
  cbn [laid_out last_after fold_left fst snd bind effect ret lift app].

(** The check before a write, for the layout: what follows starts either
    on the page of the last text, a line height below it, or on a new
    page at the top margin. *)
Lemma lays_out_guard (y0 y : Q) (k : Q -> M Q) :
  y0 + lineHeight <= y ->
  (forall last y1, cursor_ok last y1 -> lays_out last (k y1)) ->
  lays_out (Some y0)
    (yPosition <-
       (if gtb y (pageHeight P - margin)
        then effect (pdf addPage) ;; ret margin
        else ret y) ;;
     k yPosition).
Proof.
  intros Hy Hk. destruct (gtb y (pageHeight P - margin)).
  - assert (H : lays_out None (k margin)) by (apply Hk; reflexivity).
    unfold lays_out, last_after in *. run_layout.
    destruct (k margin) as [acts r]. cbn [fst snd] in *.
    destruct H as [H1 H2]. split; [split; [discriminate|exact H1]|exact H2].
  - assert (H : lays_out (Some y0) (k y)) by (apply Hk; exact Hy).
    unfold lays_out, last_after in *. run_layout.
    destruct (k y) as [acts r]. exact H.
Qed.

Lemma pdf_lines_lays_out (lines : list jsstring) (y0 y : Q) :
  y0 + lineHeight <= y -> lays_out (Some y0) (pdf_lines P lines y).
Proof.
  revert y0 y. induction lines as [|l lines IH]; intros y0 y Hy.
  - split; [exact I|]. exists y0. split; [reflexivity|].
    now intros y' [= <-].
  - cbn [pdf_lines]. apply lays_out_guard; [exact Hy|].
    intros last y1 Hc.
    destruct (IH y1 (y1 + lineHeight) (Qle_refl _)) as (H1 & H2).
    unfold lays_out, last_after in *. run_layout.
    destruct (pdf_lines P lines (y1 + lineHeight)) as [acts r].
    cbn [fst snd] in *. run_layout. split; [split|]; assumption.
Qed.

Lemma pdf_message_lays_out (msg : Message) (y0 y : Q) :
  y0 + lineHeight <= y -> lays_out (Some y0) (pdf_message P msg y).
Proof.
  intros Hy. unfold pdf_message. apply lays_out_guard; [exact Hy|].
  intros last y1 Hc. unfold lays_out, last_after.
  destruct (splitTextToSize P (content msg) (pageWidth P - 2 * margin))
    as [lines|e]; run_layout.
  - destruct (pdf_lines_lays_out lines y1 (y1 + lineHeight) (Qle_refl _))
      as (H1 & y2 & H2 & H3).
    unfold last_after in H2.
    destruct (pdf_lines P lines (y1 + lineHeight)) as [acts [y3|e]];
      cbn [fst snd] in *; run_layout; rewrite ?app_nil_r.
    + split; [split; assumption|]. exists y2. split; [exact H2|].
      intros y' [= <-]. specialize (H3 y3 eq_refl).
      unfold lineHeight in *. lra.
    + split; [split; assumption|]. exists y2. split; [exact H2|].
      discriminate.
  - split; [split; [assumption|exact I]|]. exists y1.
    split; [reflexivity|discriminate].
Qed.

Lemma pdf_messages_lays_out (msgs : list Message) (y0 y : Q) :
  y0 + lineHeight <= y -> lays_out (Some y0) (pdf_messages P msgs y).
Proof.
  revert y0 y. induction msgs as [|msg msgs IH]; intros y0 y Hy.
  - split; [exact I|]. exists y0. split; [reflexivity|].
    now intros y' [= <-].
  - cbn [pdf_messages].
    destruct (pdf_message_lays_out msg y0 y Hy) as (H1 & y1 & H2 & H3).
    unfold lays_out. rewrite fst_bind, snd_bind.
    destruct (snd (pdf_message P msg y)) as [y2|e].
    + destruct (IH y1 y2 (H3 y2 eq_refl)) as (I1 & y3 & I2 & I3).
      split.
      * apply laid_out_app; [exact H1|now rewrite H2].
      * exists y3. now rewrite last_after_app, H2.
    + rewrite app_nil_r. split; [exact H1|]. exists y1.
      split; [exact H2|discriminate].
Qed.

(** X17: whatever the messages and the size of the page, the document is
    laid out page by page: a page is added only after a page that has
    text, the first text of every page is at the top margin, every other
    text is at least a line height below the text before it on its page,
    and the last page is not empty. *)
Theorem document_is_laid_out (st : State) (generated epoch : jsstring) :
  laid_out None (fst (handleDownloadPDF P st generated epoch)) /\
  last_after None (fst (handleDownloadPDF P st generated epoch)) <> None.
Proof.
  unfold handleDownloadPDF, pdf_heading, showNotification.
  destruct (pdf_messages_lays_out (messages st) (margin + 10)
              (margin + 10 + 10 + 10)) as (H1 & y1 & H2 & H3).
  { unfold margin, lineHeight. lra. }
  unfold last_after in *. run_layout.
  destruct (pdf_messages P (messages st) (margin + 10 + 10 + 10))
    as [acts [y2|e]]; cbn [fst snd] in *; run_layout.
  - rewrite fold_left_app, H2. cbn [fold_left].
    split; [|discriminate].
    split; [reflexivity|]. split; [unfold margin, lineHeight; lra|].
    apply laid_out_app; [exact H1|].
    unfold last_after. rewrite H2. exact I.
  - rewrite H2.
    split; [|discriminate].
    split; [reflexivity|]. split; [unfold margin, lineHeight; lra|exact H1].
Qed.

End Layout.

(** ** The body of the request *)

(** X19: two drafts of 16-bit code units that differ never give the same
    request body. *)
Theorem request_body_determines_draft (a b : jsstring) :
  code_units a -> code_units b ->
  stringify_query a = stringify_query b -> a = b.
Proof.
  intros Ha Hb H. apply (f_equal read_query) in H.
  rewrite (read_query_stringify a Ha), (read_query_stringify b Hb) in H.
  congruence.
Qed.

(* ================================================================== *)
(** * The further properties on the concrete platform *)

Lemma blank_draft_is_not_submitted_witness :
  reachable a4 blank_drafted /\
  blank (query blank_drafted) /\
  requests (fst (handleSubmit blank_drafted t1)) = [] /\
  commit blank_drafted (fst (handleSubmit blank_drafted t1)) = blank_drafted.
Proof.
  assert (Hr : reachable a4 blank_drafted) by (repeat constructor).
  assert (Hb : blank (query blank_drafted)) by (repeat constructor).
  destruct (blank_draft_is_not_submitted a4 blank_drafted t1 Hr) as [H1 H2].
  exact (conj Hr (conj Hb (conj (proj1 H1 Hb) (proj1 (H2 Hb))))).
Defined.

Lemma no_empty_message_witness :
  reachable a4 numeric_reply /\
  Forall (fun m => ToBoolean (content m) = true) (messages numeric_reply).
Proof.
  assert (Hr : reachable a4 numeric_reply).
  { apply reachable_steps. constructor. }
  exact (conj Hr (no_empty_message a4 numeric_reply Hr)).
Defined.

Lemma welcome_stays_first_witness :
  reachable a4 numeric_reply /\
  exists now rest,
    messages numeric_reply = assistantMessage (JStr welcome_content) now :: rest.
Proof.
  assert (Hr : reachable a4 numeric_reply).
  { apply reachable_steps. constructor. }
  exact (conj Hr (welcome_stays_first a4 numeric_reply Hr)).
Defined.

Lemma error_is_the_fixed_text_witness :
  reachable a4 dictated_while_loading /\
  (error dictated_while_loading = None \/
   error dictated_while_loading =
     Some (js "Unable to connect to archive. Please try again.")).
Proof.
  assert (Hr : reachable a4 dictated_while_loading).
  { apply reachable_steps. constructor. }
  exact (conj Hr (error_is_the_fixed_text a4 dictated_while_loading Hr)).
Defined.

Lemma loading_follows_user_message_witness :
  reachable a4 dictated_while_loading /\
  loading dictated_while_loading = true /\
  exists earlier m,
    messages dictated_while_loading = earlier ++ [m] /\ role m = user.
Proof.
  assert (Hr : reachable a4 dictated_while_loading).
  { apply reachable_steps. constructor. }
  assert (Hl : loading dictated_while_loading = true) by reflexivity.
  exact (conj Hr (conj Hl
    (loading_follows_user_message a4 dictated_while_loading Hr Hl))).
Defined.

Lemma toggle_twice_restores_witness :
  mic_disabled (mount true t0) = false /\
  isRecordingLearn (mount true t0) = false /\
  step a4 (step a4 (mount true t0) MicClick) MicClick = mount true t0.
Proof.
  assert (Hd : mic_disabled (mount true t0) = false) by reflexivity.
  assert (Hr : isRecordingLearn (mount true t0) = false) by reflexivity.
  destruct (toggle_twice_restores a4 (mount true t0) Hd Hr) as (_ & _ & _ & H).
  exact (conj Hd (conj Hr H)).
Defined.

Lemma one_request_until_settled_witness :
  forallb (fun ev => negb (is_settle ev))
    [Change (js "hi"); FormSubmit t1; KeyPress (js "Enter") false t2;
     Recognized [(js "again", true)]; FormSubmit t2] = true /\
  (List.length (run_requests a4 (mount true t0)
    [Change (js "hi"); FormSubmit t1; KeyPress (js "Enter") false t2;
     Recognized [(js "again", true)]; FormSubmit t2]) <= 1)%nat.
Proof.
  assert (H : forallb (fun ev => negb (is_settle ev))
    [Change (js "hi"); FormSubmit t1; KeyPress (js "Enter") false t2;
     Recognized [(js "again", true)]; FormSubmit t2] = true) by reflexivity.
  exact (conj H (proj1 (one_request_until_settled a4 _ (mount true t0) H))).
Defined.

Lemma no_submission_while_loading_witness :
  loading dictated_while_loading = true /\
  forallb (fun ev => negb (is_settle ev))
    [FormSubmit t2; KeyPress (js "Enter") false t2; Change (js "more");
     FormSubmit t2] = true /\
  step a4 dictated_while_loading (FormSubmit t2) = dictated_while_loading /\
  run_requests a4 dictated_while_loading
    [FormSubmit t2; KeyPress (js "Enter") false t2; Change (js "more");
     FormSubmit t2] = [].
Proof.
  assert (Hl : loading dictated_while_loading = true) by reflexivity.
  assert (He : forallb (fun ev => negb (is_settle ev))
    [FormSubmit t2; KeyPress (js "Enter") false t2; Change (js "more");
     FormSubmit t2] = true) by reflexivity.
  destruct (no_submission_while_loading a4 dictated_while_loading Hl)
    as (H1 & _ & H3).
  exact (conj Hl (conj He (conj (proj1 (H1 t2)) (proj1 (proj2 (H3 _ He)))))).
Defined.

Lemma pending_disables_controls_witness :
  reachable a4 drafted /\ submit_disabled drafted = false /\
  input_disabled (step a4 drafted (FormSubmit t1)) = true /\
  mic_disabled (step a4 drafted (FormSubmit t1)) = true /\
  submit_disabled (step a4 drafted (FormSubmit t1)) = true /\
  input_disabled
    (step a4 (step a4 drafted (FormSubmit t1))
       (FetchSettled (response 200 (parsed (reply_payload (js "ok")))) t2))
  = false.
Proof.
  assert (Hr : reachable a4 drafted) by (repeat constructor).
  assert (Hd : submit_disabled drafted = false) by reflexivity.
  destruct (pending_disables_controls a4 drafted t1 Hr Hd) as (H1 & H2 & H3 & H4).
  refine (conj Hr (conj Hd (conj H1 (conj H2 (conj H3 (H4 _ t2 _)))))).
  intros m E. vm_compute in E. injection E as <-. now exists (js "ok").
Defined.

Lemma submit_stops_recording_witness :
  reachable a4 recording /\ trim (query recording) <> [] /\
  isRecordingLearn recording = true /\
  isRecordingLearn (commit recording (fst (handleSubmit recording t1))) = true.
Proof.
  assert (Hr : reachable a4 recording).
  { apply reachable_steps. constructor. }
  assert (Hq : trim (query recording) <> []) by (vm_compute; discriminate).
  assert (Hrec : isRecordingLearn recording = true) by reflexivity.
  exact (conj Hr (conj Hq (conj Hrec
    (proj2 (submit_stops_recording a4 recording t1 Hr Hq Hrec))))).
Defined.


Lemma document_not_saved_on_throw_witness :
  In (assistantMessage (JArr [JStr (js "a"); JNum 1]) t2) (messages array_reply) /\
  splitTextToSize a4 (JArr [JStr (js "a"); JNum 1]) (pageWidth a4 - 2 * margin)
    = Throw TypeError /\
  saves (fst (handleDownloadPDF a4 array_reply t0 (js "1761940800000"))) = [].
Proof.
  assert (Hin : In (assistantMessage (JArr [JStr (js "a"); JNum 1]) t2)
                   (messages array_reply)).
  { right. right. left. reflexivity. }
  assert (Hs : splitTextToSize a4
                 (content (assistantMessage (JArr [JStr (js "a"); JNum 1]) t2))
                 (pageWidth a4 - 2 * margin) = Throw TypeError) by reflexivity.
  destruct (document_not_saved_on_throw a4 array_reply _ _ t0
              (js "1761940800000") Hin Hs) as (_ & H & _).
  exact (conj Hin (conj Hs H)).
Defined.

Lemma request_body_determines_draft_witness :
  code_units (js "hi") /\
  (stringify_query (js "hi") = stringify_query (js "hi") -> js "hi" = js "hi").
Proof.
  assert (H : code_units (js "hi")) by (repeat constructor).
  exact (conj H (request_body_determines_draft (js "hi") (js "hi") H H)).
Defined.
